(** * cacheable-styles: abstract styles, associative merge keys, style cache

    A shallow embedding of [src/system.tsx] (abstract style nodes, the
    composer [mergeStyles], the resolver [computeStyles], the entry point
    [useSystem]) and of [src/cache.tsx] ([createStyleCache] with its [get]
    and [set] methods), followed by the properties the specification
    states about them.

    Conventions of the embedding:
    - a JavaScript string is a [string]; every character is one code unit;
    - a JavaScript number that is used as a counter or as a style value is
      an integer [Z] (numbers are exact up to 2^53);
    - [null] and [undefined] results of nullable functions are [None];
    - an object is the list of its properties in insertion order, which is
      the order [JSON.stringify] prints them in (property names that are
      not array indices);
    - the functions imported from [@emotion/hash], [deepmerge] and
      [@emotion/css] are parameters of the definitions that call them, and
      the value drawn from [uuid] is an argument of [createDynamicStyle];
      [deepMerge] models the contract the specification gives for
      [deepmerge]. *)

From Stdlib Require Import ZArith String Ascii List Bool DecimalString.
From stdpp Require Import gmap strings list fin_maps.

Set Warnings "-register-all".

Local Open Scope string_scope.
Local Open Scope Z_scope.

(** ** JavaScript values that reach the style system *)

(** Style objects and props values: the JSON-like fragment of JavaScript
    values, with [undefined] (which [JSON.stringify] treats specially). *)
Inductive JSValue : Type :=
| JUndefined : JSValue
| JNull : JSValue
| JBool (b : bool) : JSValue
| JNum (n : Z) : JSValue
| JStr (s : string) : JSValue
| JArr (items : list JSValue) : JSValue
| JObj (props : list (string * JSValue)) : JSValue.

(** [type CSS = CSSObject]: always an object, hence always truthy. *)
Definition CSS : Type := list (string * JSValue).

(** [typeof v === "string"] *)
Definition typeof_is_string (v : JSValue) : bool :=
  match v with
  | JStr _ => true
  | _ => false
  end.

(** Truthiness of a string: only the empty string is falsy. *)
Definition truthy_string (s : string) : bool :=
  negb (String.eqb s "").

(** The test [if (x)] on a [string | null | undefined] value: [Some s] when
    [x] is the truthy string [s], [None] when [x] is [null], [undefined] or
    the empty string. *)
Definition if_truthy (x : option string) : option string :=
  match x with
  | Some s => if truthy_string s then Some s else None
  | None => None
  end.

(** String concatenation with a value that may be [undefined]:
    [undefined] is printed as the text [undefined]. *)
Definition to_js_string (o : option string) : string :=
  match o with
  | Some s => s
  | None => "undefined"
  end.

(** *** JSON.stringify *)

Definition hex_digit (n : N) : ascii :=
  match n with
  | 0%N => "0" | 1%N => "1" | 2%N => "2" | 3%N => "3"
  | 4%N => "4" | 5%N => "5" | 6%N => "6" | 7%N => "7"
  | 8%N => "8" | 9%N => "9" | 10%N => "a" | 11%N => "b"
  | 12%N => "c" | 13%N => "d" | 14%N => "e" | _ => "f"
  end%char.

(** One character of a quoted JSON string (QuoteJSONString). *)
Definition json_escape_char (c : ascii) : string :=
  let n := N_of_ascii c in
  if (n =? 34)%N then "\" ++ String c ""
  else if (n =? 92)%N then "\\"
  else if (n =? 8)%N then "\b"
  else if (n =? 12)%N then "\f"
  else if (n =? 10)%N then "\n"
  else if (n =? 13)%N then "\r"
  else if (n =? 9)%N then "\t"
  else if (n <? 32)%N then
    "\u00" ++ String (hex_digit (n / 16)) (String (hex_digit (n mod 16)) "")
  else String c "".

Fixpoint json_escape (s : string) : string :=
  match s with
  | EmptyString => ""
  | String c rest => json_escape_char c ++ json_escape rest
  end.

Definition double_quote : ascii := "034"%char.

Definition json_quote (s : string) : string :=
  String double_quote (json_escape s ++ String double_quote "").

(** Number to string, for the integers the model has. *)
Definition number_to_string (n : Z) : string :=
  NilZero.string_of_int (Z.to_int n).

Fixpoint join_comma (parts : list string) : string :=
  match parts with
  | [] => ""
  | [p] => p
  | p :: rest => p ++ "," ++ join_comma rest
  end.

(** [JSON.stringify(v)]: [None] is the [undefined] result. Inside an array
    an unprintable element is printed as [null]; inside an object a property
    with an unprintable value is left out. *)
Fixpoint JSON_stringify (v : JSValue) : option string :=
  match v with
  | JUndefined => None
  | JNull => Some "null"
  | JBool true => Some "true"
  | JBool false => Some "false"
  | JNum n => Some (number_to_string n)
  | JStr s => Some (json_quote s)
  | JArr items =>
      let parts :=
        (fix elems (l : list JSValue) : list string :=
           match l with
           | [] => []
           | x :: rest =>
               match JSON_stringify x with
               | Some s => s
               | None => "null"
               end :: elems rest
           end) items in
      Some ("[" ++ join_comma parts ++ "]")
  | JObj props =>
      let parts :=
        (fix members (l : list (string * JSValue)) : list string :=
           match l with
           | [] => []
           | (k, x) :: rest =>
               match JSON_stringify x with
               | Some s => (json_quote k ++ ":" ++ s) :: members rest
               | None => members rest
               end
           end) props in
      Some ("{" ++ join_comma parts ++ "}")
  end.

(** [JSON.stringify(css)] for an object: always a string. *)
Definition JSON_stringify_css (css : CSS) : string :=
  to_js_string (JSON_stringify (JObj css)).

(** *** deepmerge *)

Fixpoint lookup_prop (k : string) (o : list (string * JSValue)) : option JSValue :=
  match o with
  | [] => None
  | (k', v) :: rest => if String.eqb k k' then Some v else lookup_prop k rest
  end.

(** [destination[k] = v]: an existing property keeps its position, a new
    one is added last. *)
Fixpoint set_prop (k : string) (v : JSValue) (o : list (string * JSValue))
  : list (string * JSValue) :=
  match o with
  | [] => [(k, v)]
  | (k', v') :: rest =>
      if String.eqb k k' then (k, v) :: rest else (k', v') :: set_prop k v rest
  end.

(** The loop [getKeys(source).forEach(key => destination[key] = f(key, source[key]))]. *)
Definition assign_props (f : string -> JSValue -> JSValue)
  : list (string * JSValue) -> list (string * JSValue) -> list (string * JSValue) :=
  fix assign (l destination : list (string * JSValue)) :=
    match l with
    | [] => destination
    | (k, sv) :: rest => assign rest (set_prop k (f k sv) destination)
    end.

(** [isMergeableObject]: objects and arrays. *)
Definition is_mergeable (v : JSValue) : bool :=
  match v with
  | JObj _ | JArr _ => true
  | _ => false
  end.

Section DeepMerge.

(** What the package does with two arrays at the same key (it
    concatenates or overrides, by its options). *)
Variable arrayMerge : list JSValue -> list JSValue -> list JSValue.

(** Modelled from the spec: the [deepmerge] package (imported as [merge],
    not part of the sources). The specification gives its contract: it
    recursively merges two mapping-like objects, right-hand values
    overriding left-hand values on conflicting keys, recursively for
    nested style objects, left-only keys preserved; the policy for nested
    values that are not both objects is the package's own, and the one
    for two arrays is the parameter [arrayMerge]. *)
Fixpoint deepMerge_value (target source : JSValue) {struct source} : JSValue :=
  match source with
  | JObj sprops =>
      match target with
      | JObj tprops =>
          JObj
            (assign_props
               (fun k sv =>
                  match lookup_prop k tprops with
                  | Some tv => deepMerge_value tv sv
                  | None => sv
                  end)
               sprops tprops)
      | _ => source
      end
  | JArr sitems =>
      match target with
      | JArr titems => JArr (arrayMerge titems sitems)
      | _ => source
      end
  | _ => source
  end.

Definition deepMerge (left right : CSS) : CSS :=
  match deepMerge_value (JObj left) (JObj right) with
  | JObj props => props
  | _ => right
  end.

End DeepMerge.

(** The default of the package for arrays: concatenation. *)
Definition concat_arrays (target source : list JSValue) : list JSValue :=
  target ++ source.

(** ** Abstract style (system.tsx) *)

Definition CacheKey : Type := string.

(** [type StyleFn<TProps> = (props: TProps) => CSS] *)
Definition StyleFn : Type := JSValue -> CSS.

(** [type AbstractStyle]: [null] or one of the four tagged objects. The
    [type] tag is the constructor; every object carries its [key]. *)
Inductive AbstractStyle : Type :=
| nullStyle : AbstractStyle
| AbstractStyleStatic (key : CacheKey) (css : CSS) : AbstractStyle
| AbstractStyleMerge (key : CacheKey) (left right : AbstractStyle) : AbstractStyle
| AbstractStyleDynamicObj (key : CacheKey) (css : CSS) : AbstractStyle
| AbstractStyleDynamicFn (key : CacheKey) (props : JSValue) (fn : StyleFn) : AbstractStyle.

Definition NULL_STYLE_KEY : CacheKey := "0".

(** [dynamicStyle]: cached by a full [JSON.stringify]. *)
Definition dynamicStyle (css : CSS) : AbstractStyle :=
  let key := JSON_stringify_css css in
  AbstractStyleDynamicObj key css.

(** [isNullStyle]: [!style]; an object is always truthy. *)
Definition isNullStyle (style : AbstractStyle) : bool :=
  match style with
  | nullStyle => true
  | _ => false
  end.

(** [getKey]: [style ? style.key : NULL_STYLE_KEY] *)
Definition getKey (style : AbstractStyle) : CacheKey :=
  match style with
  | nullStyle => NULL_STYLE_KEY
  | AbstractStyleStatic key _ => key
  | AbstractStyleMerge key _ _ => key
  | AbstractStyleDynamicObj key _ => key
  | AbstractStyleDynamicFn key _ _ => key
  end.

(** [mergeStyles]: a combination of two styles. After the two null checks
    both arguments are objects, so [getKey] reads their [key] field. The
    recursion re-associates a right-hand merge node and descends into its
    two children. *)
Fixpoint mergeStyles (left right : AbstractStyle) {struct right} : AbstractStyle :=
  if isNullStyle left then right
  else if isNullStyle right then left
  else
    let leftKey := getKey left in
    let rightKey := getKey right in
    if String.eqb leftKey rightKey then left
    else
      let key := leftKey ++ " " ++ rightKey in
      match right with
      | AbstractStyleMerge _ r1 r2 => mergeStyles (mergeStyles left r1) r2
      | _ => AbstractStyleMerge key left right
      end.

Definition getCompoundKey (__root sx : AbstractStyle) : CacheKey :=
  getKey (mergeStyles __root sx).

(** ** Style cache (cache.tsx) *)

Record CacheStats : Type := mkCacheStats {
  calls : Z;
  hits : Z;
  misses : Z;
  bailouts : Z
}.

(** The [StyleCache] object: its [Map] and its counters. The methods [get]
    and [set] mutate the object; here they return the updated object. *)
Record StyleCache : Type := mkStyleCache {
  cache : gmap string string;
  stats : CacheStats
}.

Module Cache.

Definition createStyleCache : StyleCache :=
  {| cache := ∅;
     stats := {| calls := 0; hits := 0; misses := 0; bailouts := 0 |} |}.

Definition incr_calls (st : CacheStats) : CacheStats :=
  {| calls := calls st + 1; hits := hits st;
     misses := misses st; bailouts := bailouts st |}.

Definition incr_hits (st : CacheStats) : CacheStats :=
  {| calls := calls st; hits := hits st + 1;
     misses := misses st; bailouts := bailouts st |}.

Definition incr_misses (st : CacheStats) : CacheStats :=
  {| calls := calls st; hits := hits st;
     misses := misses st + 1; bailouts := bailouts st |}.

(** [get(key)]: the test [if (existing)] is a truthiness test, so a
    missing entry and an entry holding the empty string both take the
    [else] branch. *)
Definition get (key : string) (this : StyleCache) : option string * StyleCache :=
  let this1 := {| cache := cache this; stats := incr_calls (stats this) |} in
  let existing := cache this1 !! key in
  match if_truthy existing with
  | Some existing =>
      (Some existing, {| cache := cache this1; stats := incr_hits (stats this1) |})
  | None =>
      (None, {| cache := cache this1; stats := incr_misses (stats this1) |})
  end.

(** [set(key, val)] *)
Definition set (key val : string) (this : StyleCache) : StyleCache :=
  {| cache := <[key := val]> (cache this); stats := stats this |}.

(** A sequence of lookups, the results dropped. *)
Fixpoint lookups (keys : list string) (this : StyleCache) : StyleCache :=
  match keys with
  | [] => this
  | key :: rest => lookups rest (snd (get key this))
  end.

End Cache.

(** ** Style computation and the entry point (system.tsx) *)

(** What [__root && computeStyles(__root)] can be: [null] when the style is
    null, else the result of [computeStyles]. *)
Inductive CSSInterpolation : Type :=
| InterpNull : CSSInterpolation
| InterpUndefined : CSSInterpolation
| InterpCSS (css : CSS) : CSSInterpolation.

(** The state [useSystem] runs in: the cache the context provides ([None]
    when there is no provider), and the calls made to the class-name
    generator of [@emotion/css], oldest first. *)
Record World : Type := mkWorld {
  styleCache : option StyleCache;
  emotionCalls : list (list CSSInterpolation)
}.

Section System.

(** [hashString] of [@emotion/hash]. *)
Variable hashString : string -> string.
(** [merge] of [deepmerge]. *)
Variable merge : CSS -> CSS -> CSS.
(** [css] of [@emotion/css], imported as [createEmotionClassname]. *)
Variable createEmotionClassname : list CSSInterpolation -> string.

(** [createStyle]: a static piece of CSS, known ahead of time. *)
Definition createStyle (css : CSS) : AbstractStyle :=
  let key := hashString (JSON_stringify_css css) in
  AbstractStyleStatic key css.

(** [createDynamicStyle]: [uuid] is the value [uuid()] returned when the
    factory ran; the result is the applier. *)
Definition createDynamicStyle (uuid : string) (fn : StyleFn)
  : JSValue -> AbstractStyle :=
  let keyBase := hashString uuid in
  fun props =>
    let propsKey :=
      match props with
      | JStr s => s
      | _ => to_js_string (JSON_stringify props)
      end in
    let key := keyBase ++ "(" ++ propsKey ++ ")" in
    AbstractStyleDynamicFn key props fn.

Definition mergeComputedStyles (left right : option CSS) : option CSS :=
  match left with
  | None => right
  | Some l =>
      match right with
      | None => left
      | Some r => Some (merge l r)
      end
  end.

Fixpoint computeStyles (style : AbstractStyle) : option CSS :=
  match style with
  | nullStyle => None
  | AbstractStyleDynamicObj _ css => Some css
  | AbstractStyleStatic _ css => Some css
  | AbstractStyleMerge _ l r =>
      mergeComputedStyles (computeStyles l) (computeStyles r)
  | AbstractStyleDynamicFn _ props fn => Some (fn props)
  end.

(** [style && computeStyles(style)] *)
Definition computed (style : AbstractStyle) : CSSInterpolation :=
  if isNullStyle style then InterpNull
  else
    match computeStyles style with
    | Some css => InterpCSS css
    | None => InterpUndefined
    end.

(** [cache?.get(key)] *)
Definition cache_get (key : CacheKey) (w : World) : option string * World :=
  match styleCache w with
  | None => (None, w)
  | Some c =>
      let '(r, c') := Cache.get key c in
      (r, {| styleCache := Some c'; emotionCalls := emotionCalls w |})
  end.

(** [cache?.set(key, classNames)] *)
Definition cache_set (key : CacheKey) (classNames : string) (w : World) : World :=
  match styleCache w with
  | None => w
  | Some c =>
      {| styleCache := Some (Cache.set key classNames c);
         emotionCalls := emotionCalls w |}
  end.

(** The call [createEmotionClassname(args)], recorded in the world. *)
Definition emotion_css (args : list CSSInterpolation) (w : World) : string * World :=
  (createEmotionClassname args,
   {| styleCache := styleCache w; emotionCalls := emotionCalls w ++ [args] |}).

(** [useSystem]. The development-mode trace only writes to the console
    and is left out. *)
Definition useSystem (__root sx : AbstractStyle) (w : World) : string * World :=
  let key := getCompoundKey __root sx in
  if String.eqb key NULL_STYLE_KEY then ("", w)
  else
    let '(existingClassNames, w1) := cache_get key w in
    match if_truthy existingClassNames with
    | Some existingClassNames => (existingClassNames, w1)
    | None =>
        let computedRoot := computed __root in
        let computedSx := computed sx in
        let '(classNames, w2) := emotion_css [computedRoot; computedSx] w1 in
        let w3 := cache_set key classNames w2 in
        (classNames, w3)
    end.

Definition useStyles (style : AbstractStyle) (w : World) : string * World :=
  useSystem nullStyle style w.

(** The style nodes the composer builds: the results of [nullStyle],
    [createStyle], [dynamicStyle], an applier of [createDynamicStyle], and
    [mergeStyles] of two such nodes. *)
Inductive composed : AbstractStyle -> Prop :=
| composed_null : composed nullStyle
| composed_static css : composed (createStyle css)
| composed_dynamic_obj css : composed (dynamicStyle css)
| composed_dynamic_fn uuid fn props :
    composed (createDynamicStyle uuid fn props)
| composed_merge l r :
    composed l -> composed r -> composed (mergeStyles l r).

(** A sequence of entry-point requests [(__root, sx)], in order. *)
Fixpoint requests (reqs : list (AbstractStyle * AbstractStyle)) (w : World)
  : list string * World :=
  match reqs with
  | [] => ([], w)
  | (__root, sx) :: rest =>
      let '(cls, w1) := useSystem __root sx w in
      let '(out, w2) := requests rest w1 in
      (cls :: out, w2)
  end.

End System.

(** ** Predicates the properties are stated with *)

(** [style.type === "merge"] *)
Definition is_merge (style : AbstractStyle) : bool :=
  match style with
  | AbstractStyleMerge _ _ _ => true
  | _ => false
  end.

(** The right child of the node, when it is a merge node, is not a merge
    node. *)
Definition right_child_not_merge (style : AbstractStyle) : bool :=
  match style with
  | AbstractStyleMerge _ _ r => negb (is_merge r)
  | _ => true
  end.

(** The same at every merge node of the tree. *)
Fixpoint left_leaning (style : AbstractStyle) : bool :=
  match style with
  | AbstractStyleMerge _ l r =>
      negb (is_merge r) && left_leaning l && left_leaning r
  | _ => true
  end.





(** The keys of an object are distinct, as they are in a JavaScript
    object. *)
Definition distinct_keys (o : list (string * JSValue)) : Prop :=
  List.NoDup (map fst o).

(** The counters of a cache add up. *)
Definition counters_add_up (this : StyleCache) : Prop :=
  calls (stats this) = hits (stats this) + misses (stats this).

(** ** Instances of the packages, to run the definitions *)

(** A collision-free stand-in for [hashString]. *)
Definition identity_hash (s : string) : string := s.









(** A stand-in for [css] of [@emotion/css] that names every class [css-0]. *)
Definition constant_emotion (args : list CSSInterpolation) : string := "css-0".

(** A class-name generator that returns the empty string. *)
Definition empty_emotion (args : list CSSInterpolation) : string := "".

Definition style_a : AbstractStyle := dynamicStyle [("a", JNum 1)].
Definition style_b : AbstractStyle := dynamicStyle [("b", JNum 2)].
Definition style_c : AbstractStyle := dynamicStyle [("c", JNum 3)].

(** The style objects [{a: 1}] and [{a: 2, b: 3}]. *)
Definition css_a1 : CSS := [("a", JNum 1)].
Definition css_a2_b3 : CSS := [("a", JNum 2); ("b", JNum 3)].


Definition style_ab : AbstractStyle := mergeStyles style_a style_b.

(** An applier of [createDynamicStyle] for the function
    [props => ({ width: props })]. *)
Definition width_applier : JSValue -> AbstractStyle :=
  createDynamicStyle identity_hash "u" (fun props => [("width", props)]).

(** Two requests for the key of [style_a]. *)
Definition two_requests : list (AbstractStyle * AbstractStyle) :=
  [(nullStyle, style_a); (nullStyle, style_a)].

(** Three requests whose merged nodes all have the key of [style_ab]. *)
Definition three_requests : list (AbstractStyle * AbstractStyle) :=
  [(style_a, style_b); (style_ab, nullStyle); (nullStyle, style_ab)].

(** A session with a fresh cache and no class generated yet. *)
Definition fresh_world : World :=
  {| styleCache := Some Cache.createStyleCache; emotionCalls := [] |}.

(** The same session after two requests for [style_b]. *)
Definition busy_world : World :=
  snd (requests (deepMerge concat_arrays) constant_emotion
         [(nullStyle, style_b); (nullStyle, style_b)] fresh_world).

(** The keys of a concrete object are distinct. *)
Ltac distinct_keys_tac :=
  unfold distinct_keys; cbn; repeat constructor; cbn; intuition discriminate.

(** ** Class names and the base component (system.tsx) *)

(** [mergeClassNames]: both arguments are [string | undefined]; a falsy
    argument (undefined or the empty string) gives the other one back. *)
Definition mergeClassNames (cls1 cls2 : option string) : option string :=
  match if_truthy cls1 with
  | None => cls2
  | Some c1 =>
      match if_truthy cls2 with
      | None => cls1
      | Some c2 => Some (c1 ++ " " ++ c2)
      end
  end.

Section Components.

Variable hashString : string -> string.
Variable merge : CSS -> CSS -> CSS.
Variable createEmotionClassname : list CSSInterpolation -> string.

Definition DEFAULT_STYLES : AbstractStyle :=
  createStyle hashString
    [("boxSizing", JStr "border-box"); ("margin", JNum 0); ("minWidth", JNum 0)].

(** The [className] the component [Base] gives its element, for the props
    [__root], [sx] (both [null] by default) and [className]. *)
Definition Base_className (__root sx : AbstractStyle) (userClassName : option string)
    (w : World) : option string * World :=
  let '(baseClassName, w1) :=
    useSystem merge createEmotionClassname DEFAULT_STYLES nullStyle w in
  let '(generatedClassNames, w2) :=
    useSystem merge createEmotionClassname __root sx w1 in
  let mergedClassName :=
    mergeClassNames (Some baseClassName)
      (mergeClassNames (Some generatedClassNames) userClassName) in
  (mergedClassName, w2).

End Components.

(** ** More predicates *)

(** The leaves of a style tree, left to right: the nodes that are neither
    null nor merge nodes. *)
Fixpoint leaves (style : AbstractStyle) : list AbstractStyle :=
  match style with
  | nullStyle => []
  | AbstractStyleMerge _ l r => app (leaves l) (leaves r)
  | _ => [style]
  end.

Fixpoint join_space (parts : list string) : string :=
  match parts with
  | [] => ""
  | [p] => p
  | p :: rest => p ++ " " ++ join_space rest
  end.

(** Every merge node of the tree has two non-null children and the key
    [left.key + " " + right.key]. *)
Fixpoint well_keyed (style : AbstractStyle) : Prop :=
  match style with
  | AbstractStyleMerge key l r =>
      l <> nullStyle /\ r <> nullStyle
      /\ key = getKey l ++ " " ++ getKey r
      /\ well_keyed l /\ well_keyed r
  | _ => True
  end.

(** The resolutions of a sequence of nodes merged from the left:
    [((s1 merge s2) merge s3) ...]. *)
Definition merge_left (merge : CSS -> CSS -> CSS) (styles : list (option CSS))
  : option CSS :=
  fold_left (mergeComputedStyles merge) styles None.

(** The styles [{x: {p: 1}}], [{x: 5}] and [{x: {q: 2}}]. *)
Definition style_xp : AbstractStyle := dynamicStyle [("x", JObj [("p", JNum 1)])].
Definition style_x5 : AbstractStyle := dynamicStyle [("x", JNum 5)].
Definition style_xq : AbstractStyle := dynamicStyle [("x", JObj [("q", JNum 2)])].

(** The props serialization [propsKey] of [createDynamicStyle]. *)
Definition propsKey_of (props : JSValue) : string :=
  match props with
  | JStr s => s
  | _ => to_js_string (JSON_stringify props)
  end.

(** What one call of [useSystem] can do to the cache object: nothing (the
    no-style key), count a hit, or count a miss and store an artifact under
    a key that is not the no-style key and held no truthy artifact. *)
Inductive cache_step (c : StyleCache) : StyleCache -> Prop :=
| cache_step_skip : cache_step c c
| cache_step_hit (key v : string) :
    cache c !! key = Some v -> v <> "" ->
    cache_step c
      {| cache := cache c;
         stats := Cache.incr_hits (Cache.incr_calls (stats c)) |}
| cache_step_miss (key v : string) :
    key <> NULL_STYLE_KEY ->
    cache c !! key = None \/ cache c !! key = Some "" ->
    cache_step c
      {| cache := <[key := v]> (cache c);
         stats := Cache.incr_misses (Cache.incr_calls (stats c)) |}.

(** The request [(__root, sx)] needs no class generation in the cache [c] and
    returns [cls]: its key is the no-style key and [cls] is empty, or the
    key holds the non-empty artifact [cls]. *)
Definition settled (c : StyleCache) (__root sx : AbstractStyle) (cls : string) : Prop :=
  (getCompoundKey __root sx = NULL_STYLE_KEY /\ cls = "")
  \/ (getCompoundKey __root sx <> NULL_STYLE_KEY
      /\ cache c !! (getCompoundKey __root sx : string) = Some cls /\ cls <> "").

(** The key of a request is the no-style key. *)
Definition is_sentinel_request (rs : AbstractStyle * AbstractStyle) : bool :=
  String.eqb (getCompoundKey (fst rs) (snd rs)) NULL_STYLE_KEY.

(** * Properties *)

(** ** The composer *)

Lemma isNullStyle_false (style : AbstractStyle) :
  style <> nullStyle -> isNullStyle style = false.
Proof. destruct style; simpl; congruence. Qed.

Lemma mergeStyles_null_l (right : AbstractStyle) :
  mergeStyles nullStyle right = right.
Proof. destruct right; reflexivity. Qed.

Lemma mergeStyles_null_r (left : AbstractStyle) :
  mergeStyles left nullStyle = left.
Proof. destruct left; reflexivity. Qed.

(** The branch of [mergeStyles] past the three early returns, when the
    right-hand node is a merge node. *)
Lemma mergeStyles_merge_r (left : AbstractStyle) key r1 r2 :
  isNullStyle left = false ->
  String.eqb (getKey left) key = false ->
  mergeStyles left (AbstractStyleMerge key r1 r2)
  = mergeStyles (mergeStyles left r1) r2.
Proof.
  intros Hl Hk. cbn [mergeStyles]. rewrite Hl. cbn [isNullStyle getKey].
  rewrite Hk. reflexivity.
Qed.

(** C7. Merging with the null style is the identity on both sides: the
    other node is returned as it is, so the keys agree, and merging the null
    style with itself gives the null style. *)
Theorem mergeStyles_identity (A : AbstractStyle) :
  mergeStyles A nullStyle = A
  /\ mergeStyles nullStyle A = A
  /\ getKey (mergeStyles A nullStyle) = getKey A
  /\ getKey (mergeStyles nullStyle A) = getKey A
  /\ mergeStyles nullStyle nullStyle = nullStyle.
Proof.
  rewrite mergeStyles_null_l, mergeStyles_null_r. repeat split; reflexivity.
Qed.

(** C6. Merging two non-null nodes whose keys are equal returns the left
    node itself; no merge node is built. *)
Theorem mergeStyles_equal_keys (A B : AbstractStyle) :
  A <> nullStyle -> B <> nullStyle -> getKey A = getKey B ->
  mergeStyles A B = A.
Proof.
  intros HA HB Hkey.
  apply isNullStyle_false in HA. apply isNullStyle_false in HB.
  assert (Heq : String.eqb (getKey A) (getKey B) = true)
    by (apply String.eqb_eq; exact Hkey).
  destruct B; cbn [mergeStyles]; rewrite HA; try discriminate;
    cbn [isNullStyle]; rewrite Heq; reflexivity.
Qed.

Lemma mergeStyles_equal_keys_witness :
  width_applier (JStr "1") <> nullStyle
  /\ width_applier (JNum 1) <> nullStyle
  /\ getKey (width_applier (JStr "1")) = getKey (width_applier (JNum 1))
  /\ mergeStyles (width_applier (JStr "1")) (width_applier (JNum 1))
     = width_applier (JStr "1").
Proof.
  split; [discriminate |]. split; [discriminate |]. split; [reflexivity |].
  apply (mergeStyles_equal_keys (width_applier (JStr "1")) (width_applier (JNum 1)));
    [discriminate | discriminate | reflexivity].
Defined.

(** C1. The keys of the two ways of merging three nodes differ when the
    last two nodes have the same key: merging [a] and [b] and then [b] again
    appends the key of [b] twice, while merging [b] with itself first returns
    [b] and its key is appended once. *)
Theorem mergeStyles_keys_not_associative :
  getKey (mergeStyles (mergeStyles style_a style_b) style_b)
  = getKey style_a ++ " " ++ getKey style_b ++ " " ++ getKey style_b
  /\ getKey (mergeStyles style_a (mergeStyles style_b style_b))
     = getKey style_a ++ " " ++ getKey style_b
  /\ getKey (mergeStyles (mergeStyles style_a style_b) style_b)
     <> getKey (mergeStyles style_a (mergeStyles style_b style_b)).
Proof.
  split; [reflexivity |]. split; [reflexivity |].
  vm_compute. discriminate.
Qed.

(** Merging keeps the tree left-leaning. *)
Lemma mergeStyles_left_leaning (r l : AbstractStyle) :
  left_leaning l = true -> left_leaning r = true ->
  left_leaning (mergeStyles l r) = true.
Proof.
  revert l.
  induction r as [| key css | key r1 IHr1 r2 IHr2 | key css | key props fn];
    intros l Hl Hr; cbn [mergeStyles];
    destruct (isNullStyle l) eqn:Hnull; try assumption;
    cbn [isNullStyle];
    try (destruct (String.eqb (getKey l) _); try assumption;
         cbn [left_leaning is_merge negb]; rewrite Hl; reflexivity).
  destruct (String.eqb (getKey l) _); try assumption.
  cbn [left_leaning] in Hr.
  apply andb_prop in Hr as [Hr H2]. apply andb_prop in Hr as [_ H1].
  apply IHr2; [apply IHr1 |]; assumption.
Qed.

Lemma left_leaning_right_child (style : AbstractStyle) :
  left_leaning style = true -> right_child_not_merge style = true.
Proof.
  destruct style; cbn; try reflexivity.
  intros H. apply andb_prop in H as [H _]. apply andb_prop in H as [H _].
  exact H.
Qed.

Lemma composed_left_leaning hashString (style : AbstractStyle) :
  composed hashString style -> left_leaning style = true.
Proof.
  induction 1; try reflexivity.
  apply mergeStyles_left_leaning; assumption.
Qed.

(** C3 as stated fails: when the left node has the key of the right-hand
    merge node, [mergeStyles] returns the left node and does not
    re-associate. *)
Lemma mergeStyles_equal_keys_not_reassociated :
  style_ab = AbstractStyleMerge (getKey style_ab) style_a style_b
  /\ mergeStyles style_ab style_ab = style_ab
  /\ mergeStyles style_ab style_ab
     <> mergeStyles (mergeStyles style_ab style_a) style_b.
Proof.
  split; [reflexivity |]. split; [reflexivity |].
  intros H. apply (f_equal getKey) in H. vm_compute in H. discriminate.
Qed.

(** C3. When the left node is not null and its key differs from the key of
    a right-hand merge node with children [r1] and [r2], the result is built
    as [mergeStyles (mergeStyles left r1) r2]; and every node the composer
    returns is left-leaning: the right child of a merge node, at the root and
    below, is never a merge node. *)
Theorem mergeStyles_left_leaning_normalization (hashString : string -> string) :
  (forall left key r1 r2,
      left <> nullStyle -> getKey left <> key ->
      mergeStyles left (AbstractStyleMerge key r1 r2)
      = mergeStyles (mergeStyles left r1) r2)
  /\ (forall l r,
      composed hashString l -> composed hashString r ->
      right_child_not_merge (mergeStyles l r) = true
      /\ left_leaning (mergeStyles l r) = true).
Proof.
  split.
  - intros left key r1 r2 Hl Hk. apply mergeStyles_merge_r.
    + apply isNullStyle_false; exact Hl.
    + apply String.eqb_neq; exact Hk.
  - intros l r Hl Hr.
    assert (H : left_leaning (mergeStyles l r) = true).
    { apply mergeStyles_left_leaning; eapply composed_left_leaning; eassumption. }
    split; [apply left_leaning_right_child |]; exact H.
Qed.

Lemma mergeStyles_left_leaning_normalization_witness :
  mergeStyles style_c (AbstractStyleMerge (getKey style_ab) style_a style_b)
  = mergeStyles (mergeStyles style_c style_a) style_b
  /\ right_child_not_merge (mergeStyles style_c style_ab) = true
  /\ left_leaning (mergeStyles style_c style_ab) = true.
Proof.
  pose proof (mergeStyles_left_leaning_normalization identity_hash) as [H1 H2].
  split.
  - apply H1; [discriminate | vm_compute; discriminate].
  - apply H2.
    + apply composed_dynamic_obj.
    + apply composed_merge; apply composed_dynamic_obj.
Defined.

(** ** The style cache *)

Lemma if_truthy_Some (x : option string) (s : string) :
  if_truthy x = Some s <-> x = Some s /\ s <> "".
Proof.
  unfold if_truthy, truthy_string. split.
  - destruct x as [s' |]; [| discriminate].
    destruct (String.eqb s' "") eqn:E; cbn; [discriminate |].
    intros [= ->]. split; [reflexivity |]. apply String.eqb_neq; exact E.
  - intros [-> Hne]. apply String.eqb_neq in Hne. rewrite Hne. reflexivity.
Qed.

Lemma if_truthy_None (x : option string) :
  if_truthy x = None <-> x = None \/ x = Some "".
Proof.
  unfold if_truthy, truthy_string. split.
  - destruct x as [s |]; [| left; reflexivity].
    destruct (String.eqb s "") eqn:E; cbn; [| discriminate].
    apply String.eqb_eq in E. subst s. right; reflexivity.
  - intros [-> | ->]; reflexivity.
Qed.

(** A lookup of a key that holds a truthy artifact. *)
Lemma get_hit (key v : string) (this : StyleCache) :
  cache this !! key = Some v -> v <> "" ->
  Cache.get key this
  = (Some v, {| cache := cache this;
                stats := Cache.incr_hits (Cache.incr_calls (stats this)) |}).
Proof.
  intros Hv Hne. unfold Cache.get. cbn [cache stats].
  assert (H : if_truthy (cache this !! key) = Some v)
    by (apply if_truthy_Some; split; assumption).
  rewrite H. reflexivity.
Qed.

(** A lookup of a key that is missing or holds the empty string. *)
Lemma get_miss (key : string) (this : StyleCache) :
  cache this !! key = None \/ cache this !! key = Some "" ->
  Cache.get key this
  = (None, {| cache := cache this;
              stats := Cache.incr_misses (Cache.incr_calls (stats this)) |}).
Proof.
  intros Hv. unfold Cache.get. cbn [cache stats].
  apply if_truthy_None in Hv. rewrite Hv. reflexivity.
Qed.

Lemma get_counters_add_up (key : string) (this : StyleCache) :
  counters_add_up this -> counters_add_up (snd (Cache.get key this)).
Proof.
  unfold counters_add_up, Cache.get. intros H.
  destruct (if_truthy _); cbn; lia.
Qed.

Lemma lookups_counters_add_up (keys : list string) (this : StyleCache) :
  counters_add_up this -> counters_add_up (Cache.lookups keys this).
Proof.
  revert this. induction keys as [| key rest IH]; intros this H; cbn.
  - exact H.
  - apply IH, get_counters_add_up, H.
Qed.

(** C4 as stated fails: a key that is present with the empty string as its
    artifact is counted as a miss and the lookup returns not-found. *)
Lemma get_present_empty_is_miss :
  cache (Cache.set "k" "" Cache.createStyleCache) !! "k" = Some ""
  /\ fst (Cache.get "k" (Cache.set "k" "" Cache.createStyleCache)) = None
  /\ hits (stats (snd (Cache.get "k" (Cache.set "k" "" Cache.createStyleCache))))
     = hits (stats (Cache.set "k" "" Cache.createStyleCache))
  /\ misses (stats (snd (Cache.get "k" (Cache.set "k" "" Cache.createStyleCache))))
     = misses (stats (Cache.set "k" "" Cache.createStyleCache)) + 1.
Proof. vm_compute. repeat split; reflexivity. Qed.

(** C4. A lookup leaves the mapping alone, adds one to [calls] and one to
    exactly one of [hits] and [misses]: when the key holds a non-empty
    artifact it is a hit and the artifact is returned; when the key is
    missing, or holds the empty string, it is a miss and not-found is
    returned. Hence [calls = hits + misses] is kept by any sequence of
    lookups, and holds for any sequence of lookups on a new cache. *)
Theorem get_bookkeeping (key : string) (this : StyleCache) :
  let result := fst (Cache.get key this) in
  let this' := snd (Cache.get key this) in
  cache this' = cache this
  /\ calls (stats this') = calls (stats this) + 1
  /\ bailouts (stats this') = bailouts (stats this)
  /\ (forall v, cache this !! key = Some v -> v <> "" ->
        result = Some v
        /\ hits (stats this') = hits (stats this) + 1
        /\ misses (stats this') = misses (stats this))
  /\ (cache this !! key = None \/ cache this !! key = Some "" ->
        result = None
        /\ hits (stats this') = hits (stats this)
        /\ misses (stats this') = misses (stats this) + 1)
  /\ (forall keys, counters_add_up this ->
        counters_add_up (Cache.lookups keys this))
  /\ (forall keys, counters_add_up (Cache.lookups keys Cache.createStyleCache)).
Proof.
  cbv zeta. repeat split.
  - unfold Cache.get. destruct (if_truthy _); reflexivity.
  - unfold Cache.get. destruct (if_truthy _); reflexivity.
  - unfold Cache.get. destruct (if_truthy _); reflexivity.
  - rewrite (get_hit key v this) by assumption. reflexivity.
  - rewrite (get_hit key v this) by assumption. reflexivity.
  - rewrite (get_hit key v this) by assumption. reflexivity.
  - rewrite (get_miss key this) by assumption. reflexivity.
  - rewrite (get_miss key this) by assumption. reflexivity.
  - rewrite (get_miss key this) by assumption. reflexivity.
  - intros keys H. apply lookups_counters_add_up, H.
  - intros keys. apply lookups_counters_add_up. reflexivity.
Qed.

Lemma get_bookkeeping_witness :
  cache (Cache.set "k" "css-0" Cache.createStyleCache) !! "k" = Some "css-0"
  /\ fst (Cache.get "k" (Cache.set "k" "css-0" Cache.createStyleCache)) = Some "css-0"
  /\ hits (stats (snd (Cache.get "k" (Cache.set "k" "css-0" Cache.createStyleCache)))) = 1
  /\ fst (Cache.get "j" (Cache.set "k" "css-0" Cache.createStyleCache)) = None
  /\ misses (stats (snd (Cache.get "j" (Cache.set "k" "css-0" Cache.createStyleCache)))) = 1
  /\ counters_add_up
       (Cache.lookups ["k"; "j"; "k"] (Cache.set "k" "css-0" Cache.createStyleCache)).
Proof.
  pose proof (get_bookkeeping "k" (Cache.set "k" "css-0" Cache.createStyleCache))
    as (_ & _ & _ & Hhit & _ & Hseq & _).
  pose proof (get_bookkeeping "j" (Cache.set "k" "css-0" Cache.createStyleCache))
    as (_ & _ & _ & _ & Hmiss & _ & _).
  cbv zeta in Hhit, Hmiss.
  destruct (Hhit "css-0") as (Hr & Hh & _); [reflexivity | discriminate |].
  destruct Hmiss as (Hr' & _ & Hm'); [left; reflexivity |].
  split; [reflexivity |]. split; [exact Hr |]. split; [exact Hh |].
  split; [exact Hr' |]. split; [exact Hm' |].
  apply Hseq. reflexivity.
Defined.

(** ** The entry point *)

(** C8. When the merged node has the no-style key, [useSystem] returns the
    empty string and leaves the world as it was: the cache mapping, the
    counters and the list of generated classes are unchanged. Merging the
    null style with itself is such a case. *)
Theorem useSystem_sentinel (merge : CSS -> CSS -> CSS)
    (createEmotionClassname : list CSSInterpolation -> string)
    (__root sx : AbstractStyle) (w : World) :
  getCompoundKey __root sx = NULL_STYLE_KEY ->
  useSystem merge createEmotionClassname __root sx w = ("", w).
Proof.
  intros Hkey. unfold useSystem. rewrite Hkey. reflexivity.
Qed.

Lemma useSystem_sentinel_witness :
  getCompoundKey nullStyle nullStyle = NULL_STYLE_KEY
  /\ useSystem (deepMerge concat_arrays) constant_emotion nullStyle nullStyle fresh_world
     = ("", fresh_world).
Proof.
  split; [reflexivity |].
  apply (useSystem_sentinel (deepMerge concat_arrays) constant_emotion nullStyle nullStyle fresh_world).
  reflexivity.
Defined.

Section Requests.

Variable merge : CSS -> CSS -> CSS.
Variable createEmotionClassname : list CSSInterpolation -> string.

(** A request whose key holds a non-empty artifact is a hit. *)
Lemma useSystem_hit (__root sx : AbstractStyle) (key v : string)
    (c : StyleCache) (log : list (list CSSInterpolation)) :
  getCompoundKey __root sx = key -> key <> NULL_STYLE_KEY ->
  cache c !! key = Some v -> v <> "" ->
  useSystem merge createEmotionClassname __root sx
    {| styleCache := Some c; emotionCalls := log |}
  = (v, {| styleCache :=
             Some {| cache := cache c;
                     stats := Cache.incr_hits (Cache.incr_calls (stats c)) |};
           emotionCalls := log |}).
Proof.
  intros Hkey Hne Hv Hv'. unfold useSystem. rewrite Hkey.
  apply String.eqb_neq in Hne. rewrite Hne.
  unfold cache_get. cbn [styleCache emotionCalls].
  rewrite (get_hit key v c Hv Hv'). cbn. 
  apply String.eqb_neq in Hv'. unfold truthy_string. rewrite Hv'. reflexivity.
Qed.

(** A request whose key is missing, or holds the empty string, generates
    the class and stores it. *)
Lemma useSystem_miss (__root sx : AbstractStyle) (key : string)
    (c : StyleCache) (log : list (list CSSInterpolation)) :
  getCompoundKey __root sx = key -> key <> NULL_STYLE_KEY ->
  cache c !! key = None \/ cache c !! key = Some "" ->
  useSystem merge createEmotionClassname __root sx
    {| styleCache := Some c; emotionCalls := log |}
  = (createEmotionClassname [computed merge __root; computed merge sx],
     {| styleCache :=
          Some {| cache :=
                    <[key := createEmotionClassname
                               [computed merge __root; computed merge sx]]>
                      (cache c);
                  stats := Cache.incr_misses (Cache.incr_calls (stats c)) |};
        emotionCalls := log ++ [[computed merge __root; computed merge sx]] |}).
Proof.
  intros Hkey Hne Hv. unfold useSystem. rewrite Hkey.
  apply String.eqb_neq in Hne. rewrite Hne.
  unfold cache_get. cbn [styleCache emotionCalls].
  rewrite (get_miss key c Hv). reflexivity.
Qed.

(** Requests for a key that holds a non-empty artifact are all hits. *)
Lemma requests_hits (key v : string) (reqs : list (AbstractStyle * AbstractStyle)) :
  key <> NULL_STYLE_KEY -> v <> "" ->
  Forall (fun rs => getCompoundKey (fst rs) (snd rs) = key) reqs ->
  forall (c : StyleCache) (log : list (list CSSInterpolation)),
    cache c !! key = Some v ->
    exists c',
      requests merge createEmotionClassname reqs
        {| styleCache := Some c; emotionCalls := log |}
      = (repeat v (length reqs),
         {| styleCache := Some c'; emotionCalls := log |})
      /\ cache c' = cache c
      /\ calls (stats c') = calls (stats c) + Z.of_nat (length reqs)
      /\ hits (stats c') = hits (stats c) + Z.of_nat (length reqs)
      /\ misses (stats c') = misses (stats c)
      /\ bailouts (stats c') = bailouts (stats c).
Proof.
  intros Hne Hv' Hall.
  induction Hall as [| [__root sx] rest Hkey Hrest IH]; intros c log Hv.
  - exists c. cbn. repeat split; lia.
  - cbn [fst snd] in Hkey. cbn [requests].
    rewrite (useSystem_hit __root sx key v c log Hkey Hne Hv Hv').
    destruct (IH {| cache := cache c;
                    stats := Cache.incr_hits (Cache.incr_calls (stats c)) |}
                log Hv) as (c' & Hrun & Hc & Hcalls & Hhits & Hmiss & Hbail).
    exists c'. rewrite Hrun. cbn in *.
    repeat split; try assumption; lia.
Qed.

End Requests.

(** C2 as stated fails. When the class-name generator returns the empty
    string, the stored artifact is falsy, so the second request for the same
    key is a miss again and the generator runs a second time. And in a
    session that has served another key before, the counters after one
    request for a new key are not 0 hits and 1 miss. *)
Lemma requests_empty_artifact_generated_again :
  (Forall (fun rs => getCompoundKey (fst rs) (snd rs) = getKey style_a) two_requests
   /\ getKey style_a <> NULL_STYLE_KEY
   /\ cache Cache.createStyleCache !! getKey style_a = None
   /\ length (emotionCalls
                (snd (requests (deepMerge concat_arrays) empty_emotion
                        two_requests fresh_world)))
      = 2%nat
   /\ option_map stats
        (styleCache (snd (requests (deepMerge concat_arrays) empty_emotion
                            two_requests fresh_world)))
      = Some {| calls := 2; hits := 0; misses := 2; bailouts := 0 |})
  /\ (option_map (fun c => cache c !! getKey style_a) (styleCache busy_world)
      = Some None
      /\ option_map stats
           (styleCache (snd (requests (deepMerge concat_arrays) constant_emotion
                               [(nullStyle, style_a)] busy_world)))
         = Some {| calls := 3; hits := 1; misses := 2; bailouts := 0 |}).
Proof.
  split.
  - split; [repeat constructor |]. split; [vm_compute; discriminate |].
    split; [reflexivity |]. split; reflexivity.
  - split; vm_compute; reflexivity.
Qed.

(** C2. In a session whose cache has no entry for the key, a sequence of
    N >= 1 requests whose merged nodes all have that key, the key not being
    the no-style key, calls the class-name generator exactly once (for the
    first request), provided the artifact it returns is not the empty
    string; afterwards [hits] has grown by N-1, [misses] by 1 and [calls] by
    N, the key holds the artifact, and every request returned it. *)
Theorem requests_generate_once (merge : CSS -> CSS -> CSS)
    (createEmotionClassname : list CSSInterpolation -> string)
    (key : string) (__root sx : AbstractStyle)
    (rest : list (AbstractStyle * AbstractStyle))
    (c : StyleCache) (log : list (list CSSInterpolation)) :
  let reqs := (__root, sx) :: rest in
  let args := [computed merge __root; computed merge sx] in
  Forall (fun rs => getCompoundKey (fst rs) (snd rs) = key) reqs ->
  key <> NULL_STYLE_KEY ->
  cache c !! key = None ->
  createEmotionClassname args <> "" ->
  exists c',
    requests merge createEmotionClassname reqs
      {| styleCache := Some c; emotionCalls := log |}
    = (repeat (createEmotionClassname args) (length reqs),
       {| styleCache := Some c'; emotionCalls := log ++ [args] |})
    /\ cache c' = <[key := createEmotionClassname args]> (cache c)
    /\ hits (stats c') = hits (stats c) + (Z.of_nat (length reqs) - 1)
    /\ misses (stats c') = misses (stats c) + 1
    /\ calls (stats c') = calls (stats c) + Z.of_nat (length reqs).
Proof.
  cbv zeta. intros Hall Hne Hnone Hartifact.
  pose proof (Forall_inv Hall) as Hkey. pose proof (Forall_inv_tail Hall) as Hrest.
  cbn [fst snd] in Hkey.
  cbn [requests].
  rewrite (useSystem_miss merge createEmotionClassname __root sx key c log
             Hkey Hne (or_introl Hnone)).
  set (artifact := createEmotionClassname [computed merge __root; computed merge sx]) in *.
  destruct (requests_hits merge createEmotionClassname key artifact rest
              Hne Hartifact Hrest
              {| cache := <[key := artifact]> (cache c);
                 stats := Cache.incr_misses (Cache.incr_calls (stats c)) |}
              (log ++ [[computed merge __root; computed merge sx]]))
    as (c' & Hrun & Hc & Hcalls & Hhits & Hmiss & _).
  { cbn. apply lookup_insert_eq. }
  exists c'. rewrite Hrun. cbn [length repeat] in *. cbn in Hc, Hcalls, Hhits, Hmiss.
  repeat split; try assumption; lia.
Qed.

Lemma requests_generate_once_witness :
  Forall (fun rs => getCompoundKey (fst rs) (snd rs) = getKey style_ab) three_requests
  /\ getKey style_ab <> NULL_STYLE_KEY
  /\ cache Cache.createStyleCache !! getKey style_ab = None
  /\ constant_emotion [computed (deepMerge concat_arrays) style_a; computed (deepMerge concat_arrays) style_b] <> ""
  /\ exists c',
       requests (deepMerge concat_arrays) constant_emotion three_requests fresh_world
       = (["css-0"; "css-0"; "css-0"],
          {| styleCache := Some c';
             emotionCalls := [[computed (deepMerge concat_arrays) style_a; computed (deepMerge concat_arrays) style_b]] |})
       /\ hits (stats c') = 2
       /\ misses (stats c') = 1
       /\ calls (stats c') = 3.
Proof.
  assert (Hall : Forall (fun rs => getCompoundKey (fst rs) (snd rs) = getKey style_ab)
                   three_requests) by (repeat constructor).
  assert (Hne : getKey style_ab <> NULL_STYLE_KEY) by (vm_compute; discriminate).
  assert (Hart : constant_emotion [computed (deepMerge concat_arrays) style_a; computed (deepMerge concat_arrays) style_b]
                 <> "") by discriminate.
  split; [exact Hall |]. split; [exact Hne |]. split; [reflexivity |].
  split; [exact Hart |].
  destruct (requests_generate_once (deepMerge concat_arrays) constant_emotion (getKey style_ab)
              style_a style_b [(style_ab, nullStyle); (nullStyle, style_ab)]
              Cache.createStyleCache [] Hall Hne eq_refl Hart)
    as (c' & Hrun & _ & Hhits & Hmiss & Hcalls).
  exists c'. split; [exact Hrun |]. split; [exact Hhits |]. split; assumption.
Defined.

(** ** The resolver *)

Lemma lookup_set_prop (k k' : string) (v : JSValue) (o : list (string * JSValue)) :
  lookup_prop k (set_prop k' v o)
  = if String.eqb k k' then Some v else lookup_prop k o.
Proof.
  induction o as [| [k'' v''] rest IH]; cbn.
  - reflexivity.
  - destruct (String.eqb_spec k' k'') as [-> | Hne]; cbn.
    + destruct (String.eqb k k''); reflexivity.
    + rewrite IH. destruct (String.eqb_spec k k') as [-> | Hne'].
      * apply String.eqb_neq in Hne. rewrite Hne. reflexivity.
      * reflexivity.
Qed.

Lemma lookup_prop_None_not_In (k : string) (o : list (string * JSValue)) :
  ~ In k (map fst o) -> lookup_prop k o = None.
Proof.
  induction o as [| [k' v] rest IH]; cbn; intros Hnot.
  - reflexivity.
  - destruct (String.eqb_spec k k') as [-> | Hne].
    + exfalso. apply Hnot. left. reflexivity.
    + apply IH. intros Hin. apply Hnot. right. exact Hin.
Qed.

(** What the assignment loop leaves at a key, for a source with distinct
    keys. *)
Lemma lookup_assign_props (f : string -> JSValue -> JSValue) (k : string)
    (source : list (string * JSValue)) :
  distinct_keys source ->
  forall destination,
    lookup_prop k (assign_props f source destination)
    = match lookup_prop k source with
      | Some sv => Some (f k sv)
      | None => lookup_prop k destination
      end.
Proof.
  unfold distinct_keys.
  induction source as [| [k' sv] rest IH]; intros Hnodup destination; cbn.
  - reflexivity.
  - cbn in Hnodup. apply List.NoDup_cons_iff in Hnodup as [Hnot Hrest].
    rewrite (IH Hrest). destruct (String.eqb_spec k k') as [-> | Hne].
    + rewrite (lookup_prop_None_not_In k' rest Hnot).
      rewrite lookup_set_prop, String.eqb_refl. reflexivity.
    + destruct (lookup_prop k rest); [reflexivity |].
      rewrite lookup_set_prop. apply String.eqb_neq in Hne. rewrite Hne.
      reflexivity.
Qed.

Section DeepMergeFacts.

Variable arrayMerge : list JSValue -> list JSValue -> list JSValue.

Lemma deepMerge_unfold (left right : CSS) :
  deepMerge arrayMerge left right
  = assign_props
      (fun k sv =>
         match lookup_prop k left with
         | Some tv => deepMerge_value arrayMerge tv sv
         | None => sv
         end) right left.
Proof. reflexivity. Qed.

Lemma deepMerge_value_override (tv sv : JSValue) :
  is_mergeable sv = false -> deepMerge_value arrayMerge tv sv = sv.
Proof. destruct sv; cbn; intros H; try reflexivity; discriminate. Qed.

(** The property of a merged object at a key. *)
Lemma deepMerge_lookup (left right : CSS) (k : string) :
  distinct_keys right ->
  lookup_prop k (deepMerge arrayMerge left right)
  = match lookup_prop k right with
    | Some sv =>
        Some match lookup_prop k left with
             | Some tv => deepMerge_value arrayMerge tv sv
             | None => sv
             end
    | None => lookup_prop k left
    end.
Proof.
  intros Hd. rewrite deepMerge_unfold. apply lookup_assign_props, Hd.
Qed.

End DeepMergeFacts.

(** C5. Resolving a merge node with children [left] and [right] gives the
    resolution of [right] when [left] resolves to absent, the resolution of
    [left] when [right] resolves to absent, and otherwise the deep merge of
    the two resolutions. In the deep merge a right-hand value that is not an
    object or an array overrides the left-hand one, two objects at the same
    key are merged recursively, and left-only keys are preserved. In
    particular the merge node of the static nodes of [{a:1}] and
    [{a:2, b:3}] resolves to [{a:2, b:3}], and so does the node
    [mergeStyles] returns for them when their keys differ. *)
Theorem computeStyles_merge (hashString : string -> string)
    (arrayMerge : list JSValue -> list JSValue -> list JSValue) :
  (forall (merge : CSS -> CSS -> CSS) key left right,
      (computeStyles merge left = None ->
       computeStyles merge (AbstractStyleMerge key left right)
       = computeStyles merge right)
      /\ (computeStyles merge right = None ->
          computeStyles merge (AbstractStyleMerge key left right)
          = computeStyles merge left)
      /\ (forall l r,
             computeStyles merge left = Some l ->
             computeStyles merge right = Some r ->
             computeStyles merge (AbstractStyleMerge key left right)
             = Some (merge l r)))
  /\ (forall (l r : CSS) k v,
         distinct_keys r -> lookup_prop k r = Some v -> is_mergeable v = false ->
         lookup_prop k (deepMerge arrayMerge l r) = Some v)
  /\ (forall (l r : CSS) k tprops sprops,
         distinct_keys r ->
         lookup_prop k l = Some (JObj tprops) ->
         lookup_prop k r = Some (JObj sprops) ->
         lookup_prop k (deepMerge arrayMerge l r)
         = Some (JObj (deepMerge arrayMerge tprops sprops)))
  /\ (forall (l r : CSS) k,
         distinct_keys r -> lookup_prop k r = None ->
         lookup_prop k (deepMerge arrayMerge l r) = lookup_prop k l)
  /\ (forall key,
         computeStyles (deepMerge arrayMerge)
           (AbstractStyleMerge key (createStyle hashString css_a1)
              (createStyle hashString css_a2_b3))
         = Some css_a2_b3)
  /\ (getKey (createStyle hashString css_a1)
      <> getKey (createStyle hashString css_a2_b3) ->
      computeStyles (deepMerge arrayMerge)
        (mergeStyles (createStyle hashString css_a1)
           (createStyle hashString css_a2_b3))
      = Some css_a2_b3).
Proof.
  split; [| split; [| split; [| split; [| split]]]].
  - intros merge key left right. cbn [computeStyles]. repeat split.
    + intros ->. reflexivity.
    + intros ->. destruct (computeStyles merge left); reflexivity.
    + intros l r -> ->. reflexivity.
  - intros l r k v Hd Hv Hobj. rewrite (deepMerge_lookup arrayMerge l r k Hd), Hv.
    destruct (lookup_prop k l); [| reflexivity].
    rewrite (deepMerge_value_override arrayMerge _ v Hobj). reflexivity.
  - intros l r k tprops sprops Hd Hl Hr.
    rewrite (deepMerge_lookup arrayMerge l r k Hd), Hr, Hl. reflexivity.
  - intros l r k Hd Hr. rewrite (deepMerge_lookup arrayMerge l r k Hd), Hr.
    reflexivity.
  - intros key. reflexivity.
  - intros Hne. unfold createStyle in *. cbn [getKey] in Hne.
    apply String.eqb_neq in Hne. cbn [mergeStyles isNullStyle getKey].
    rewrite Hne. reflexivity.
Qed.

Lemma computeStyles_merge_witness :
  getKey (createStyle identity_hash css_a1)
  <> getKey (createStyle identity_hash css_a2_b3)
  /\ computeStyles (deepMerge concat_arrays)
       (mergeStyles (createStyle identity_hash css_a1)
          (createStyle identity_hash css_a2_b3))
     = Some css_a2_b3
  /\ lookup_prop "a" (deepMerge concat_arrays css_a1 css_a2_b3) = Some (JNum 2)
  /\ lookup_prop "b" (deepMerge concat_arrays css_a2_b3 css_a1) = Some (JNum 3).
Proof.
  pose proof (computeStyles_merge identity_hash concat_arrays)
    as (_ & Hover & _ & Hleft & _ & Hex).
  assert (Hne : getKey (createStyle identity_hash css_a1)
                <> getKey (createStyle identity_hash css_a2_b3))
    by (vm_compute; discriminate).
  split; [exact Hne |]. split; [exact (Hex Hne) |]. split.
  - apply Hover; [distinct_keys_tac | reflexivity | reflexivity].
  - rewrite Hleft; [reflexivity | distinct_keys_tac | reflexivity].
Defined.

(** ** Keys of the leaves *)





(** C10. The key an applier builds is the base token of its factory, then
    the props serialization in parentheses: a string props value verbatim,
    any other value as [JSON.stringify] prints it. Hence the string [1] and
    the number 1, two distinct props values, get the same key from one
    applier. *)
Theorem createDynamicStyle_props_key (hashString : string -> string)
    (uuid : string) (fn : StyleFn) :
  (forall s,
      getKey (createDynamicStyle hashString uuid fn (JStr s))
      = hashString uuid ++ "(" ++ s ++ ")")
  /\ (forall props,
         typeof_is_string props = false ->
         getKey (createDynamicStyle hashString uuid fn props)
         = hashString uuid ++ "(" ++ to_js_string (JSON_stringify props) ++ ")")
  /\ JStr "1" <> JNum 1
  /\ getKey (createDynamicStyle hashString uuid fn (JStr "1"))
     = getKey (createDynamicStyle hashString uuid fn (JNum 1)).
Proof.
  split; [| split; [| split]].
  - intros s. reflexivity.
  - intros props Hty. destruct props; try reflexivity; discriminate.
  - discriminate.
  - reflexivity.
Qed.

Lemma createDynamicStyle_props_key_witness :
  typeof_is_string (JNum 1) = false
  /\ getKey (width_applier (JNum 1)) = "u(1)"
  /\ getKey (width_applier (JStr "1")) = "u(1)".
Proof.
  pose proof (createDynamicStyle_props_key identity_hash "u"
                (fun props => [("width", props)])) as (Hstr & Hjson & _ & _).
  split; [reflexivity |]. split.
  - apply (Hjson (JNum 1)). reflexivity.
  - apply (Hstr "1").
Defined.

(** * Further properties of the composer and the resolver *)

Lemma string_app_assoc (s1 s2 s3 : string) :
  (s1 ++ s2) ++ s3 = s1 ++ (s2 ++ s3).
Proof.
  induction s1 as [| c s1 IH]; [reflexivity |].
  change (String c ((s1 ++ s2) ++ s3) = String c (s1 ++ (s2 ++ s3))).
  rewrite IH. reflexivity.
Qed.

Lemma isNullStyle_true (style : AbstractStyle) :
  isNullStyle style = true -> style = nullStyle.
Proof. destruct style; cbn; congruence. Qed.

Lemma isNullStyle_false_neq (style : AbstractStyle) :
  isNullStyle style = false -> style <> nullStyle.
Proof. destruct style; cbn; congruence. Qed.

(** A non-null left argument gives a non-null result. *)
Lemma mergeStyles_non_null_l (r l : AbstractStyle) :
  isNullStyle l = false -> isNullStyle (mergeStyles l r) = false.
Proof.
  revert l.
  induction r as [| key css | key r1 IHr1 r2 IHr2 | key css | key props fn];
    intros l Hl; cbn [mergeStyles]; rewrite Hl; cbn [isNullStyle];
    try exact Hl;
    destruct (String.eqb (getKey l) _); try exact Hl; try reflexivity.
  apply IHr2, IHr1, Hl.
Qed.

(** X1. [mergeStyles] returns the null style only when both arguments are
    the null style. *)
Theorem mergeStyles_null_iff (left right : AbstractStyle) :
  mergeStyles left right = nullStyle <-> left = nullStyle /\ right = nullStyle.
Proof.
  split.
  - intros H. destruct (isNullStyle left) eqn:Hl.
    + apply isNullStyle_true in Hl. subst left.
      rewrite mergeStyles_null_l in H. split; [reflexivity | exact H].
    + apply (mergeStyles_non_null_l right) in Hl. rewrite H in Hl. discriminate.
  - intros [-> ->]. reflexivity.
Qed.

Lemma mergeStyles_leaves_aux (r l : AbstractStyle) :
  exists kept,
    leaves (mergeStyles l r) = (leaves l ++ kept)%list
    /\ kept `sublist_of` leaves r.
Proof.
  revert l.
  induction r as [| key css | key r1 IHr1 r2 IHr2 | key css | key props fn];
    intros l; cbn [mergeStyles];
    (destruct (isNullStyle l) eqn:Hl;
     [apply isNullStyle_true in Hl; subst l; eexists; split;
      [reflexivity | reflexivity] |]);
    cbn [isNullStyle];
    try (exists []; split; [symmetry; apply app_nil_r | apply sublist_nil_l]);
    (destruct (String.eqb (getKey l) _);
     [exists []; split; [symmetry; apply app_nil_r | apply sublist_nil_l] |]);
    try (eexists; split; [reflexivity | reflexivity]).
  destruct (IHr1 l) as (k1 & E1 & S1).
  destruct (IHr2 (mergeStyles l r1)) as (k2 & E2 & S2).
  exists (k1 ++ k2)%list. split.
  - rewrite E2, E1, <- List.app_assoc. reflexivity.
  - cbn [leaves]. apply sublist_app; assumption.
Qed.

(** X2. The leaves of a merged node are all the leaves of the left
    argument, in order, followed by leaves of the right argument, in order:
    nothing of the left argument is dropped or moved, and leaves of the right
    argument are at most dropped. *)
Theorem mergeStyles_leaves (left right : AbstractStyle) :
  exists kept,
    leaves (mergeStyles left right) = (leaves left ++ kept)%list
    /\ kept `sublist_of` leaves right.
Proof. apply mergeStyles_leaves_aux. Qed.

Lemma mergeStyles_well_keyed (r l : AbstractStyle) :
  well_keyed l -> well_keyed r -> well_keyed (mergeStyles l r).
Proof.
  revert l.
  induction r as [| key css | key r1 IHr1 r2 IHr2 | key css | key props fn];
    intros l Hl Hr; cbn [mergeStyles];
    destruct (isNullStyle l) eqn:Hnull; try assumption;
    cbn [isNullStyle];
    destruct (String.eqb (getKey l) _); try assumption;
    try (cbn [well_keyed getKey]; apply isNullStyle_false_neq in Hnull;
         repeat split; try assumption; discriminate).
  cbn [well_keyed] in Hr. destruct Hr as (_ & _ & _ & H1 & H2).
  apply IHr2; [apply IHr1 |]; assumption.
Qed.

Lemma composed_well_keyed hashString (style : AbstractStyle) :
  composed hashString style -> well_keyed style.
Proof.
  induction 1; try exact I.
  apply mergeStyles_well_keyed; assumption.
Qed.

Lemma join_space_app (L R : list string) :
  L <> [] -> R <> [] ->
  join_space (L ++ R)%list = join_space L ++ " " ++ join_space R.
Proof.
  intros HL HR. induction L as [| p L IH]; [congruence |].
  destruct L as [| q L].
  - destruct R; [congruence | reflexivity].
  - change (join_space ((p :: q :: L) ++ R)%list)
      with (p ++ " " ++ join_space ((q :: L) ++ R)%list).
    rewrite IH by discriminate.
    change (join_space (p :: q :: L)) with (p ++ " " ++ join_space (q :: L)).
    rewrite !string_app_assoc. reflexivity.
Qed.

Lemma well_keyed_key (style : AbstractStyle) :
  well_keyed style -> style <> nullStyle ->
  leaves style <> []
  /\ getKey style = join_space (map getKey (leaves style)).
Proof.
  induction style as [| key css | key l IHl r IHr | key css | key props fn];
    intros Hwk Hne; try congruence;
    try (split; [discriminate | reflexivity]).
  cbn [well_keyed] in Hwk. destruct Hwk as (Hl & Hr & Hkey & Hwl & Hwr).
  destruct (IHl Hwl Hl) as [HLne HLkey]. destruct (IHr Hwr Hr) as [HRne HRkey].
  cbn [leaves getKey]. split.
  - destruct (leaves l); [congruence | discriminate].
  - rewrite map_app, join_space_app.
    + rewrite <- HLkey, <- HRkey. exact Hkey.
    + destruct (leaves l); [congruence | discriminate].
    + destruct (leaves r); [congruence | discriminate].
Qed.

(** X3. The key of a node built by the composer is the keys of its leaves,
    left to right, joined by single spaces. *)
Theorem composed_key_joins_leaf_keys (hashString : string -> string)
    (style : AbstractStyle) :
  composed hashString style -> style <> nullStyle ->
  getKey style = join_space (map getKey (leaves style)).
Proof.
  intros Hc Hne. apply well_keyed_key; [| exact Hne].
  eapply composed_well_keyed; exact Hc.
Qed.

Lemma composed_key_joins_leaf_keys_witness :
  mergeStyles style_c style_ab <> nullStyle
  /\ getKey (mergeStyles style_c style_ab)
     = getKey style_c ++ " " ++ getKey style_a ++ " " ++ getKey style_b.
Proof.
  split; [discriminate |].
  apply (composed_key_joins_leaf_keys identity_hash (mergeStyles style_c style_ab)).
  - apply composed_merge; [apply composed_dynamic_obj |].
    apply composed_merge; apply composed_dynamic_obj.
  - discriminate.
Defined.

Section Resolution.

Variable merge : CSS -> CSS -> CSS.

(** A left-leaning tree resolves to its leaves merged from the left. *)
Lemma computeStyles_merge_left (style : AbstractStyle) :
  left_leaning style = true -> well_keyed style ->
  computeStyles merge style
  = merge_left merge (map (computeStyles merge) (leaves style)).
Proof.
  induction style as [| key css | key l IHl r IHr | key css | key props fn];
    intros Hll Hwk; try reflexivity.
  cbn [left_leaning] in Hll.
  apply andb_prop in Hll as [Hll _]. apply andb_prop in Hll as [Hr Hl].
  cbn [well_keyed] in Hwk. destruct Hwk as (_ & Hrn & _ & Hwl & _).
  assert (Hleaf : leaves r = [r])
    by (destruct r; try reflexivity; [congruence | discriminate]).
  cbn [computeStyles leaves]. rewrite Hleaf, map_app.
  unfold merge_left in *. rewrite fold_left_app. cbn [map fold_left].
  rewrite <- (IHl Hl Hwl). reflexivity.
Qed.

Lemma well_keyed_computeStyles (style : AbstractStyle) :
  well_keyed style -> style <> nullStyle -> computeStyles merge style <> None.
Proof.
  induction style as [| key css | key l IHl r IHr | key css | key props fn];
    intros Hwk Hne; try congruence; try discriminate.
  cbn [well_keyed] in Hwk. destruct Hwk as (Hl & _ & _ & Hwl & _).
  cbn [computeStyles]. specialize (IHl Hwl Hl).
  destruct (computeStyles merge l); [| congruence].
  destruct (computeStyles merge r); discriminate.
Qed.

End Resolution.

(** X4. A node built by the composer resolves to the styles of its leaves
    merged from the left, [((s1 merge s2) merge s3) ...], for every [merge]
    function and whatever way the calls of [mergeStyles] were nested. *)
Theorem computeStyles_left_fold (hashString : string -> string)
    (merge : CSS -> CSS -> CSS) (style : AbstractStyle) :
  composed hashString style ->
  computeStyles merge style
  = merge_left merge (map (computeStyles merge) (leaves style)).
Proof.
  intros Hc. apply computeStyles_merge_left.
  - eapply composed_left_leaning; exact Hc.
  - eapply composed_well_keyed; exact Hc.
Qed.

Lemma computeStyles_left_fold_witness :
  composed identity_hash (mergeStyles style_xp (mergeStyles style_x5 style_xq))
  /\ computeStyles (deepMerge concat_arrays)
       (mergeStyles style_xp (mergeStyles style_x5 style_xq))
     = Some [("x", JObj [("q", JNum 2)])]
  /\ mergeComputedStyles (deepMerge concat_arrays)
       (computeStyles (deepMerge concat_arrays) style_xp)
       (computeStyles (deepMerge concat_arrays) (mergeStyles style_x5 style_xq))
     = Some [("x", JObj [("p", JNum 1); ("q", JNum 2)])].
Proof.
  assert (Hc : composed identity_hash
                 (mergeStyles style_xp (mergeStyles style_x5 style_xq))).
  { apply composed_merge; [apply composed_dynamic_obj |].
    apply composed_merge; apply composed_dynamic_obj. }
  split; [exact Hc |]. split; [| reflexivity].
  rewrite (computeStyles_left_fold identity_hash (deepMerge concat_arrays) _ Hc).
  reflexivity.
Defined.

(** X5. A node built by the composer resolves to absent only when it is the
    null style; so what [useSystem] passes to the class-name generator for
    such a node is never [undefined]. *)
Theorem composed_computeStyles_defined (hashString : string -> string)
    (merge : CSS -> CSS -> CSS) (style : AbstractStyle) :
  composed hashString style ->
  (computeStyles merge style = None <-> style = nullStyle)
  /\ computed merge style <> InterpUndefined.
Proof.
  intros Hc. apply composed_well_keyed in Hc.
  assert (H : style <> nullStyle -> computeStyles merge style <> None)
    by (apply well_keyed_computeStyles; exact Hc).
  split.
  - split.
    + intros Hnone. destruct (isNullStyle style) eqn:Hn.
      * apply isNullStyle_true; exact Hn.
      * apply isNullStyle_false_neq in Hn. contradiction (H Hn).
    + intros ->. reflexivity.
  - unfold computed. destruct (isNullStyle style) eqn:Hn; [discriminate |].
    apply isNullStyle_false_neq in Hn. specialize (H Hn).
    destruct (computeStyles merge style); [discriminate | congruence].
Qed.

Lemma composed_computeStyles_defined_witness :
  computeStyles (deepMerge concat_arrays) (mergeStyles style_c style_ab) <> None
  /\ computed (deepMerge concat_arrays) (mergeStyles style_c style_ab)
     <> InterpUndefined.
Proof.
  destruct (composed_computeStyles_defined identity_hash (deepMerge concat_arrays)
              (mergeStyles style_c style_ab)) as [[H1 _] H2].
  - apply composed_merge; [apply composed_dynamic_obj |].
    apply composed_merge; apply composed_dynamic_obj.
  - split; [| exact H2]. intros Hnone. apply H1 in Hnone. discriminate.
Defined.

(** * Further properties of the cache, the keys and the class names *)

(** X6. Storing a non-empty artifact and looking the key up returns the
    artifact; storing leaves the counters and the lookups of the other keys
    as they were, and a second store under the same key replaces the
    first. *)
Theorem set_then_get (this : StyleCache) (key val : string) :
  val <> "" ->
  fst (Cache.get key (Cache.set key val this)) = Some val
  /\ stats (Cache.set key val this) = stats this
  /\ (forall key', key' <> key ->
        fst (Cache.get key' (Cache.set key val this)) = fst (Cache.get key' this))
  /\ (forall val',
        Cache.set key val' (Cache.set key val this) = Cache.set key val' this).
Proof.
  intros Hval. split; [| split; [reflexivity | split]].
  - rewrite (get_hit key val); [reflexivity | | exact Hval].
    cbn. apply lookup_insert_eq.
  - intros key' Hne. unfold Cache.get, Cache.set. cbn [cache stats].
    rewrite lookup_insert_ne by congruence.
    destruct (if_truthy (cache this !! key')); reflexivity.
  - intros val'. unfold Cache.set. cbn [cache stats].
    rewrite insert_insert_eq. reflexivity.
Qed.

Lemma set_then_get_witness :
  fst (Cache.get "k" (Cache.set "k" "css-0" Cache.createStyleCache)) = Some "css-0"
  /\ fst (Cache.get "j" (Cache.set "k" "css-0" (Cache.set "j" "css-1" Cache.createStyleCache)))
     = Some "css-1".
Proof.
  split.
  - apply (set_then_get Cache.createStyleCache "k" "css-0"). discriminate.
  - destruct (set_then_get (Cache.set "j" "css-1" Cache.createStyleCache) "k" "css-0")
      as (_ & _ & Hother & _); [discriminate |].
    rewrite (Hother "j"); [| discriminate].
    apply (set_then_get Cache.createStyleCache "j" "css-1"). discriminate.
Defined.

Lemma string_app_inv_head (p a b : string) : p ++ a = p ++ b -> a = b.
Proof.
  induction p as [| c p IH]; intros H; [exact H |].
  change (String c (p ++ a) = String c (p ++ b)) in H.
  injection H as H. apply IH, H.
Qed.

Lemma string_app_inv_tail (c : ascii) (a b : string) :
  a ++ String c "" = b ++ String c "" -> a = b.
Proof.
  revert b. induction a as [| x a IH]; intros [| y b] H.
  - reflexivity.
  - change (String c "" = String y (b ++ String c "")) in H.
    injection H as _ H. destruct b; discriminate.
  - change (String x (a ++ String c "") = String c "") in H.
    injection H as _ H. destruct a; discriminate.
  - change (String x (a ++ String c "") = String y (b ++ String c "")) in H.
    injection H as -> H. f_equal. apply IH, H.
Qed.

(** X7. Two nodes made by one applier have the same key exactly when their
    props have the same serialization (the string itself, or the
    [JSON.stringify] text); in particular two string props give the same key
    only when they are the same string. *)
Theorem applier_key_injective (hashString : string -> string) (uuid : string)
    (fn : StyleFn) :
  (forall p q,
      getKey (createDynamicStyle hashString uuid fn p)
      = getKey (createDynamicStyle hashString uuid fn q)
      <-> propsKey_of p = propsKey_of q)
  /\ (forall s t,
         getKey (createDynamicStyle hashString uuid fn (JStr s))
         = getKey (createDynamicStyle hashString uuid fn (JStr t))
         -> s = t).
Proof.
  assert (Hkey : forall p,
             getKey (createDynamicStyle hashString uuid fn p)
             = hashString uuid ++ ("(" ++ (propsKey_of p ++ ")")))
    by (intros p; destruct p; reflexivity).
  assert (Hinj : forall p q,
             getKey (createDynamicStyle hashString uuid fn p)
             = getKey (createDynamicStyle hashString uuid fn q)
             -> propsKey_of p = propsKey_of q).
  { intros p q H. rewrite !Hkey in H.
    apply string_app_inv_head, string_app_inv_head in H.
    apply (string_app_inv_tail ")"%char), H. }
  split.
  - intros p q. split; [apply Hinj |].
    intros H. rewrite !Hkey, H. reflexivity.
  - intros s t H. apply (Hinj (JStr s) (JStr t)), H.
Qed.

Lemma applier_key_injective_witness :
  propsKey_of (JStr "1") = propsKey_of (JNum 1)
  /\ getKey (width_applier (JStr "1")) = getKey (width_applier (JNum 1))
  /\ getKey (width_applier (JStr "8px")) <> getKey (width_applier (JStr "16px")).
Proof.
  pose proof (applier_key_injective identity_hash "u"
                (fun props => [("width", props)])) as [Hiff Hstr].
  split; [reflexivity |]. split.
  - apply (Hiff (JStr "1") (JNum 1)). reflexivity.
  - intros H. apply (Hstr "8px" "16px") in H. discriminate.
Defined.

Lemma if_truthy_join (c1 c2 : string) :
  if_truthy (Some (c1 ++ " " ++ c2)) = Some (c1 ++ " " ++ c2).
Proof. destruct c1; reflexivity. Qed.

Lemma mergeClassNames_falsy_l (cls1 cls2 : option string) :
  if_truthy cls1 = None -> mergeClassNames cls1 cls2 = cls2.
Proof. unfold mergeClassNames. intros ->. reflexivity. Qed.

Lemma mergeClassNames_falsy_r (c1 : string) (cls2 : option string) :
  c1 <> "" -> if_truthy cls2 = None ->
  mergeClassNames (Some c1) cls2 = Some c1.
Proof.
  intros H1 H2. unfold mergeClassNames.
  assert (H : if_truthy (Some c1) = Some c1)
    by (apply if_truthy_Some; split; [reflexivity | exact H1]).
  rewrite H, H2. reflexivity.
Qed.

Lemma mergeClassNames_truthy (c1 c2 : string) :
  c1 <> "" -> c2 <> "" ->
  mergeClassNames (Some c1) (Some c2) = Some (c1 ++ " " ++ c2).
Proof.
  intros H1 H2. unfold mergeClassNames.
  assert (Ht1 : if_truthy (Some c1) = Some c1)
    by (apply if_truthy_Some; split; [reflexivity | exact H1]).
  assert (Ht2 : if_truthy (Some c2) = Some c2)
    by (apply if_truthy_Some; split; [reflexivity | exact H2]).
  rewrite Ht1, Ht2. reflexivity.
Qed.

Lemma join_not_empty (c1 c2 : string) : c1 ++ " " ++ c2 <> "".
Proof. destruct c1; discriminate. Qed.

(** X8. [mergeClassNames] is associative, a falsy first argument (undefined
    or the empty string) gives back the second argument as it is, and two
    non-empty class names are joined by one space. *)
Theorem mergeClassNames_assoc :
  (forall a b c,
      mergeClassNames a (mergeClassNames b c)
      = mergeClassNames (mergeClassNames a b) c)
  /\ (forall b, mergeClassNames None b = b /\ mergeClassNames (Some "") b = b)
  /\ (forall c1 c2, c1 <> "" -> c2 <> "" ->
        mergeClassNames (Some c1) (Some c2) = Some (c1 ++ " " ++ c2)).
Proof.
  split; [| split; [intros b; split; reflexivity | apply mergeClassNames_truthy]].
  intros a b c.
  destruct (if_truthy a) as [a1 |] eqn:Ha.
  - apply if_truthy_Some in Ha as [-> Ha].
    destruct (if_truthy b) as [b1 |] eqn:Hb.
    + apply if_truthy_Some in Hb as [-> Hb].
      destruct (if_truthy c) as [c1 |] eqn:Hc.
      * apply if_truthy_Some in Hc as [-> Hc].
        rewrite !mergeClassNames_truthy
          by first [assumption | apply join_not_empty].
        rewrite !string_app_assoc. reflexivity.
      * rewrite (mergeClassNames_falsy_r b1 c Hb Hc).
        rewrite (mergeClassNames_truthy a1 b1 Ha Hb).
        rewrite (mergeClassNames_falsy_r _ c (join_not_empty a1 b1) Hc).
        reflexivity.
    + rewrite (mergeClassNames_falsy_l b c Hb).
      rewrite (mergeClassNames_falsy_r a1 b Ha Hb). reflexivity.
  - rewrite (mergeClassNames_falsy_l a _ Ha), (mergeClassNames_falsy_l a b Ha).
    reflexivity.
Qed.

Lemma mergeClassNames_assoc_witness :
  mergeClassNames (Some "css-0") (Some "card")
  = Some ("css-0" ++ " " ++ "card").
Proof.
  apply (proj2 (proj2 mergeClassNames_assoc) "css-0" "card"); discriminate.
Defined.

(** * Further properties of the entry point *)

Section Sessions.

Variable merge : CSS -> CSS -> CSS.
Variable createEmotionClassname : list CSSInterpolation -> string.

(** A request with the no-style key returns at once. *)
Lemma useSystem_no_style_key (__root sx : AbstractStyle) (w : World) :
  getCompoundKey __root sx = NULL_STYLE_KEY ->
  useSystem merge createEmotionClassname __root sx w = ("", w).
Proof. intros Hk. unfold useSystem. rewrite Hk. reflexivity. Qed.

(** Every call of [useSystem] with a cache is one [cache_step]. *)
Lemma useSystem_cache_step (__root sx : AbstractStyle) (c : StyleCache)
    (log : list (list CSSInterpolation)) :
  exists cls c' log',
    useSystem merge createEmotionClassname __root sx
      {| styleCache := Some c; emotionCalls := log |}
    = (cls, {| styleCache := Some c'; emotionCalls := log' |})
    /\ cache_step c c'.
Proof.
  destruct (String.eqb_spec (getCompoundKey __root sx) NULL_STYLE_KEY) as [Hk | Hk].
  - exists "", c, log. split; [| constructor].
    apply useSystem_no_style_key, Hk.
  - destruct (cache c !! getCompoundKey __root sx) as [v |] eqn:Hv.
    + destruct (String.eqb_spec v "") as [-> | Hne].
      * eexists _, _, _. split.
        -- apply (useSystem_miss merge createEmotionClassname __root sx _ c log
                    eq_refl Hk). right. exact Hv.
        -- apply cache_step_miss; [exact Hk | right; exact Hv].
      * eexists _, _, _. split.
        -- apply (useSystem_hit merge createEmotionClassname __root sx _ v c log
                    eq_refl Hk Hv Hne).
        -- eapply cache_step_hit; eassumption.
    + eexists _, _, _. split.
      * apply (useSystem_miss merge createEmotionClassname __root sx _ c log
                 eq_refl Hk). left. exact Hv.
      * apply cache_step_miss; [exact Hk | left; exact Hv].
Qed.

Lemma requests_snd_cons (rs : AbstractStyle * AbstractStyle)
    (rest : list (AbstractStyle * AbstractStyle)) (w : World) :
  snd (requests merge createEmotionClassname (rs :: rest) w)
  = snd (requests merge createEmotionClassname rest
           (snd (useSystem merge createEmotionClassname (fst rs) (snd rs) w))).
Proof.
  destruct rs as [__root sx]. cbn [requests fst snd].
  destruct (useSystem merge createEmotionClassname __root sx w) as [cls w1].
  cbn [snd].
  destruct (requests merge createEmotionClassname rest w1). reflexivity.
Qed.

(** What every [cache_step] keeps, a sequence of requests keeps. *)
Lemma requests_preserve (P : StyleCache -> Prop) :
  (forall c c', cache_step c c' -> P c -> P c') ->
  forall (reqs : list (AbstractStyle * AbstractStyle)) (c : StyleCache)
         (log : list (list CSSInterpolation)),
    P c ->
    exists c' log',
      snd (requests merge createEmotionClassname reqs
             {| styleCache := Some c; emotionCalls := log |})
      = {| styleCache := Some c'; emotionCalls := log' |}
      /\ P c'.
Proof.
  intros Hstep reqs.
  induction reqs as [| [__root sx] rest IH]; intros c log HP.
  - exists c, log. split; [reflexivity | exact HP].
  - rewrite requests_snd_cons. cbn [fst snd].
    destruct (useSystem_cache_step __root sx c log) as (cls & c1 & log1 & Hrun & Hs).
    rewrite Hrun. cbn [snd]. apply IH. eapply Hstep; eassumption.
Qed.

End Sessions.

Lemma cache_step_counters (c c' : StyleCache) :
  cache_step c c' ->
  bailouts (stats c') = bailouts (stats c)
  /\ (counters_add_up c -> counters_add_up c').
Proof.
  unfold counters_add_up. destruct 1; cbn; split; try reflexivity; lia.
Qed.

Lemma cache_step_stable (key v : string) (c c' : StyleCache) :
  v <> "" -> cache_step c c' ->
  cache c !! key = Some v -> cache c' !! key = Some v.
Proof.
  intros Hv Hstep Hkey. destruct Hstep as [| key' v' Hk' _ | key' v' _ Hk']; cbn;
    try exact Hkey.
  destruct (decide (key' = key)) as [Heq | Hne].
  - subst key'. exfalso. destruct Hk' as [Hk' | Hk'].
    + pose proof (eq_trans (eq_sym Hkey) Hk') as H. discriminate.
    + pose proof (eq_trans (eq_sym Hkey) Hk') as H. injection H as H.
      contradiction.
  - rewrite lookup_insert_ne by exact Hne. exact Hkey.
Qed.

Lemma cache_step_size (c c' : StyleCache) :
  cache_step c c' ->
  Z.of_nat (size (cache c)) <= misses (stats c) ->
  Z.of_nat (size (cache c')) <= misses (stats c').
Proof.
  destruct 1 as [| key v _ _ | key v _ _]; cbn; try (intros; assumption).
  intros H. rewrite map_size_insert.
  match goal with
  | |- context [match ?x with Some _ => _ | None => _ end] => destruct x
  end; unfold id; lia.
Qed.

Lemma cache_step_sentinel (c c' : StyleCache) :
  cache_step c c' ->
  cache c !! NULL_STYLE_KEY = None -> cache c' !! NULL_STYLE_KEY = None.
Proof.
  destruct 1 as [| key v _ _ | key v Hne _]; cbn; try (intros; assumption).
  intros H. rewrite lookup_insert_ne by exact Hne. exact H.
Qed.

(** X9. No sequence of requests changes the [bailouts] counter, and every
    sequence of requests keeps [calls = hits + misses]. *)
Theorem requests_counters (merge : CSS -> CSS -> CSS)
    (createEmotionClassname : list CSSInterpolation -> string)
    (reqs : list (AbstractStyle * AbstractStyle)) (c : StyleCache)
    (log : list (list CSSInterpolation)) :
  exists c' log',
    snd (requests merge createEmotionClassname reqs
           {| styleCache := Some c; emotionCalls := log |})
    = {| styleCache := Some c'; emotionCalls := log' |}
    /\ bailouts (stats c') = bailouts (stats c)
    /\ (counters_add_up c -> counters_add_up c').
Proof.
  apply (requests_preserve merge createEmotionClassname
           (fun c' => bailouts (stats c') = bailouts (stats c)
                      /\ (counters_add_up c -> counters_add_up c'))).
  - intros c1 c2 Hstep [Hb Hc]. apply cache_step_counters in Hstep as [Hb' Hc'].
    split; [congruence | tauto].
  - split; [reflexivity | tauto].
Qed.

Lemma requests_counters_witness :
  counters_add_up Cache.createStyleCache
  /\ exists c' log',
       snd (requests (deepMerge concat_arrays) constant_emotion three_requests
              fresh_world)
       = {| styleCache := Some c'; emotionCalls := log' |}
       /\ bailouts (stats c') = 0
       /\ counters_add_up c'.
Proof.
  split; [reflexivity |].
  destruct (requests_counters (deepMerge concat_arrays) constant_emotion
              three_requests Cache.createStyleCache [])
    as (c' & log' & Hrun & Hb & Hc).
  exists c', log'. split; [exact Hrun |]. split; [exact Hb |].
  apply Hc. reflexivity.
Defined.

(** X10. A key that holds a non-empty artifact holds the same artifact after
    any sequence of requests: an entry is never evicted and a non-empty
    entry is never replaced. *)
Theorem requests_artifact_stable (merge : CSS -> CSS -> CSS)
    (createEmotionClassname : list CSSInterpolation -> string)
    (reqs : list (AbstractStyle * AbstractStyle)) (c : StyleCache)
    (log : list (list CSSInterpolation)) (key v : string) :
  cache c !! key = Some v -> v <> "" ->
  exists c' log',
    snd (requests merge createEmotionClassname reqs
           {| styleCache := Some c; emotionCalls := log |})
    = {| styleCache := Some c'; emotionCalls := log' |}
    /\ cache c' !! key = Some v.
Proof.
  intros Hkey Hv.
  apply (requests_preserve merge createEmotionClassname
           (fun c' => cache c' !! key = Some v)); [| exact Hkey].
  intros c1 c2 Hstep H. eapply cache_step_stable; eassumption.
Qed.

Lemma requests_artifact_stable_witness :
  exists c' log',
    snd (requests (deepMerge concat_arrays) constant_emotion three_requests
           {| styleCache := Some (Cache.set "k" "css-9" Cache.createStyleCache);
              emotionCalls := [] |})
    = {| styleCache := Some c'; emotionCalls := log' |}
    /\ cache c' !! "k" = Some "css-9".
Proof.
  apply (requests_artifact_stable (deepMerge concat_arrays) constant_emotion
           three_requests (Cache.set "k" "css-9" Cache.createStyleCache) []
           "k" "css-9"); [reflexivity | discriminate].
Defined.

(** X11. The cache never holds more entries than it has counted misses:
    the bound is kept by every sequence of requests, and holds for every
    sequence of requests on a new cache. *)
Theorem requests_entries_bounded (merge : CSS -> CSS -> CSS)
    (createEmotionClassname : list CSSInterpolation -> string)
    (reqs : list (AbstractStyle * AbstractStyle)) (c : StyleCache)
    (log : list (list CSSInterpolation)) :
  Z.of_nat (size (cache c)) <= misses (stats c) ->
  exists c' log',
    snd (requests merge createEmotionClassname reqs
           {| styleCache := Some c; emotionCalls := log |})
    = {| styleCache := Some c'; emotionCalls := log' |}
    /\ Z.of_nat (size (cache c')) <= misses (stats c').
Proof.
  intros H.
  apply (requests_preserve merge createEmotionClassname
           (fun c' => Z.of_nat (size (cache c')) <= misses (stats c')));
    [| exact H].
  intros c1 c2 Hstep. apply cache_step_size, Hstep.
Qed.

Lemma requests_entries_bounded_witness :
  Z.of_nat (size (cache Cache.createStyleCache)) <= misses (stats Cache.createStyleCache)
  /\ exists c' log',
       snd (requests (deepMerge concat_arrays) constant_emotion three_requests
              fresh_world)
       = {| styleCache := Some c'; emotionCalls := log' |}
       /\ Z.of_nat (size (cache c')) <= misses (stats c').
Proof.
  assert (H : Z.of_nat (size (cache Cache.createStyleCache))
              <= misses (stats Cache.createStyleCache))
    by (vm_compute; discriminate).
  split; [exact H |].
  apply (requests_entries_bounded (deepMerge concat_arrays) constant_emotion
           three_requests Cache.createStyleCache [] H).
Defined.

(** X12. No sequence of requests stores an artifact under the no-style
    key. *)
Theorem requests_sentinel_never_stored (merge : CSS -> CSS -> CSS)
    (createEmotionClassname : list CSSInterpolation -> string)
    (reqs : list (AbstractStyle * AbstractStyle)) (c : StyleCache)
    (log : list (list CSSInterpolation)) :
  cache c !! NULL_STYLE_KEY = None ->
  exists c' log',
    snd (requests merge createEmotionClassname reqs
           {| styleCache := Some c; emotionCalls := log |})
    = {| styleCache := Some c'; emotionCalls := log' |}
    /\ cache c' !! NULL_STYLE_KEY = None.
Proof.
  intros H.
  apply (requests_preserve merge createEmotionClassname
           (fun c' => cache c' !! NULL_STYLE_KEY = None)); [| exact H].
  intros c1 c2 Hstep. apply cache_step_sentinel, Hstep.
Qed.

Lemma requests_sentinel_never_stored_witness :
  cache Cache.createStyleCache !! NULL_STYLE_KEY = None
  /\ exists c' log',
       snd (requests (deepMerge concat_arrays) constant_emotion
              ((nullStyle, nullStyle) :: three_requests) fresh_world)
       = {| styleCache := Some c'; emotionCalls := log' |}
       /\ cache c' !! NULL_STYLE_KEY = None.
Proof.
  split; [reflexivity |].
  apply (requests_sentinel_never_stored (deepMerge concat_arrays) constant_emotion
           ((nullStyle, nullStyle) :: three_requests) Cache.createStyleCache []).
  reflexivity.
Defined.

(** X13. Without a cache in the context every request whose key is not the
    no-style key calls the class-name generator: the calls made are one per
    such request, in order, and the context still has no cache. *)
Theorem requests_without_cache (merge : CSS -> CSS -> CSS)
    (createEmotionClassname : list CSSInterpolation -> string)
    (reqs : list (AbstractStyle * AbstractStyle))
    (log : list (list CSSInterpolation)) :
  requests merge createEmotionClassname reqs
    {| styleCache := None; emotionCalls := log |}
  = (map (fun rs =>
            if is_sentinel_request rs then ""
            else createEmotionClassname
                   [computed merge (fst rs); computed merge (snd rs)]) reqs,
     {| styleCache := None;
        emotionCalls :=
          (log ++ map (fun rs => [computed merge (fst rs); computed merge (snd rs)])
                    (List.filter (fun rs => negb (is_sentinel_request rs)) reqs))%list |}).
Proof.
  revert log. induction reqs as [| [__root sx] rest IH]; intros log.
  - cbn. rewrite app_nil_r. reflexivity.
  - cbn [requests map List.filter]. unfold is_sentinel_request at 1 3.
    cbn [fst snd]. unfold useSystem.
    destruct (String.eqb (getCompoundKey __root sx) NULL_STYLE_KEY) eqn:Hk.
    + rewrite IH. reflexivity.
    + cbn [cache_get styleCache emotionCalls if_truthy emotion_css cache_set negb].
      rewrite IH. cbn [map]. rewrite <- List.app_assoc. reflexivity.
Qed.

Section Rerender.

Variable hashString : string -> string.
Variable merge : CSS -> CSS -> CSS.
Variable createEmotionClassname : list CSSInterpolation -> string.

(** After a request whose generated class is not empty, the request is
    settled. *)
Lemma useSystem_settles (__root sx : AbstractStyle) (c : StyleCache)
    (log : list (list CSSInterpolation)) :
  createEmotionClassname [computed merge __root; computed merge sx] <> "" ->
  exists cls c' log',
    useSystem merge createEmotionClassname __root sx
      {| styleCache := Some c; emotionCalls := log |}
    = (cls, {| styleCache := Some c'; emotionCalls := log' |})
    /\ cache_step c c'
    /\ settled c' __root sx cls.
Proof.
  intros Hart.
  destruct (String.eqb_spec (getCompoundKey __root sx) NULL_STYLE_KEY) as [Hk | Hk].
  - exists "", c, log. split; [apply useSystem_no_style_key, Hk |].
    split; [constructor | left; split; [exact Hk | reflexivity]].
  - assert (Hmiss :
      cache c !! (getCompoundKey __root sx : string) = None
      \/ cache c !! (getCompoundKey __root sx : string) = Some "" ->
      exists cls c' log',
        useSystem merge createEmotionClassname __root sx
          {| styleCache := Some c; emotionCalls := log |}
        = (cls, {| styleCache := Some c'; emotionCalls := log' |})
        /\ cache_step c c' /\ settled c' __root sx cls).
    { intros Hv. eexists _, _, _. split; [| split].
      - apply (useSystem_miss merge createEmotionClassname __root sx _ c log
                 eq_refl Hk Hv).
      - apply cache_step_miss; [exact Hk | exact Hv].
      - right. split; [exact Hk |]. split; [| exact Hart].
        cbn [cache]. apply lookup_insert_eq. }
    destruct (cache c !! (getCompoundKey __root sx : string)) as [v |] eqn:Hv.
    + destruct (String.eqb_spec v "") as [-> | Hne].
      * apply Hmiss. right. reflexivity.
      * eexists _, _, _. split; [| split].
        -- apply (useSystem_hit merge createEmotionClassname __root sx _ v c log
                    eq_refl Hk Hv Hne).
        -- eapply cache_step_hit; eassumption.
        -- right. split; [exact Hk |]. split; [exact Hv | exact Hne].
    + apply Hmiss. left. reflexivity.
Qed.

(** A settled request returns its class, generates nothing and leaves the
    mapping as it was. *)
Lemma settled_replay (__root sx : AbstractStyle) (cls : string) (c : StyleCache)
    (log : list (list CSSInterpolation)) :
  settled c __root sx cls ->
  exists c',
    useSystem merge createEmotionClassname __root sx
      {| styleCache := Some c; emotionCalls := log |}
    = (cls, {| styleCache := Some c'; emotionCalls := log |})
    /\ cache c' = cache c.
Proof.
  intros [[Hk ->] | (Hk & Hv & Hne)].
  - exists c. split; [apply useSystem_no_style_key, Hk | reflexivity].
  - eexists. split.
    + apply (useSystem_hit merge createEmotionClassname __root sx _ cls c log
               eq_refl Hk Hv Hne).
    + reflexivity.
Qed.

Lemma settled_cache_step (__root sx : AbstractStyle) (cls : string)
    (c c' : StyleCache) :
  cache_step c c' -> settled c __root sx cls -> settled c' __root sx cls.
Proof.
  intros Hstep [H | (Hk & Hv & Hne)]; [left; exact H | right].
  split; [exact Hk |]. split; [| exact Hne].
  eapply cache_step_stable; eassumption.
Qed.

Lemma settled_same_cache (__root sx : AbstractStyle) (cls : string)
    (c c' : StyleCache) :
  cache c' = cache c -> settled c __root sx cls -> settled c' __root sx cls.
Proof.
  intros Heq [H | (Hk & Hv & Hne)]; [left; exact H | right].
  rewrite Heq. repeat split; assumption.
Qed.

End Rerender.

(** X14. Asking again for the same pair of styles right after a request
    returns the same class name, generates no class and leaves the cached
    mapping as it is, provided the class generated for the pair is not
    empty. *)
Theorem useSystem_twice (merge : CSS -> CSS -> CSS)
    (createEmotionClassname : list CSSInterpolation -> string)
    (__root sx : AbstractStyle) (c : StyleCache)
    (log : list (list CSSInterpolation)) :
  createEmotionClassname [computed merge __root; computed merge sx] <> "" ->
  let first :=
    useSystem merge createEmotionClassname __root sx
      {| styleCache := Some c; emotionCalls := log |} in
  let second := useSystem merge createEmotionClassname __root sx (snd first) in
  fst second = fst first
  /\ emotionCalls (snd second) = emotionCalls (snd first)
  /\ option_map cache (styleCache (snd second))
     = option_map cache (styleCache (snd first)).
Proof.
  intros Hart. cbv zeta.
  destruct (useSystem_settles merge createEmotionClassname __root sx c log Hart)
    as (cls & c1 & log1 & Hrun & _ & Hset).
  rewrite Hrun. cbn [fst snd].
  destruct (settled_replay merge createEmotionClassname __root sx cls c1 log1 Hset)
    as (c2 & Hrun2 & Hc2).
  rewrite Hrun2. cbn. rewrite Hc2. repeat split; reflexivity.
Qed.

Lemma useSystem_twice_witness :
  constant_emotion [computed (deepMerge concat_arrays) style_a;
                    computed (deepMerge concat_arrays) style_b] <> ""
  /\ fst (useSystem (deepMerge concat_arrays) constant_emotion style_a style_b
            (snd (useSystem (deepMerge concat_arrays) constant_emotion
                    style_a style_b fresh_world)))
     = fst (useSystem (deepMerge concat_arrays) constant_emotion style_a style_b
              fresh_world).
Proof.
  split; [discriminate |].
  apply (useSystem_twice (deepMerge concat_arrays) constant_emotion style_a style_b
           Cache.createStyleCache []).
  discriminate.
Defined.

(** X15. Rendering [Base] again with the same props right after a render
    gives the same [className] and generates no class, provided the classes
    generated for the default styles and for the pair of styles are not
    empty. *)
Theorem Base_className_rerender (hashString : string -> string)
    (merge : CSS -> CSS -> CSS)
    (createEmotionClassname : list CSSInterpolation -> string)
    (__root sx : AbstractStyle) (userClassName : option string)
    (c : StyleCache) (log : list (list CSSInterpolation)) :
  createEmotionClassname
    [computed merge (DEFAULT_STYLES hashString); computed merge nullStyle] <> "" ->
  createEmotionClassname [computed merge __root; computed merge sx] <> "" ->
  let first :=
    Base_className hashString merge createEmotionClassname __root sx userClassName
      {| styleCache := Some c; emotionCalls := log |} in
  let second :=
    Base_className hashString merge createEmotionClassname __root sx userClassName
      (snd first) in
  fst second = fst first
  /\ emotionCalls (snd second) = emotionCalls (snd first).
Proof.
  intros HartD HartR. cbv zeta.
  destruct (useSystem_settles merge createEmotionClassname
              (DEFAULT_STYLES hashString) nullStyle c log HartD)
    as (b & c1 & log1 & Hrun1 & _ & Hset1).
  destruct (useSystem_settles merge createEmotionClassname __root sx c1 log1 HartR)
    as (g & c2 & log2 & Hrun2 & Hstep2 & Hset2).
  pose proof (settled_cache_step _ _ _ _ _ Hstep2 Hset1) as Hset1'.
  destruct (settled_replay merge createEmotionClassname
              (DEFAULT_STYLES hashString) nullStyle b c2 log2 Hset1')
    as (c3 & Hrun3 & Hc3).
  pose proof (settled_same_cache _ _ _ _ _ Hc3 Hset2) as Hset2'.
  destruct (settled_replay merge createEmotionClassname __root sx g c3 log2 Hset2')
    as (c4 & Hrun4 & _).
  unfold Base_className. rewrite Hrun1, Hrun2. cbn [fst snd].
  rewrite Hrun3, Hrun4. split; reflexivity.
Qed.

Lemma Base_className_rerender_witness :
  constant_emotion
    [computed (deepMerge concat_arrays) (DEFAULT_STYLES identity_hash);
     computed (deepMerge concat_arrays) nullStyle] <> ""
  /\ constant_emotion [computed (deepMerge concat_arrays) style_a;
                      computed (deepMerge concat_arrays) style_b] <> ""
  /\ fst (Base_className identity_hash (deepMerge concat_arrays) constant_emotion
            style_a style_b (Some "card")
            (snd (Base_className identity_hash (deepMerge concat_arrays)
                    constant_emotion style_a style_b (Some "card") fresh_world)))
     = fst (Base_className identity_hash (deepMerge concat_arrays) constant_emotion
              style_a style_b (Some "card") fresh_world).
Proof.
  split; [discriminate |]. split; [discriminate |].
  apply (Base_className_rerender identity_hash (deepMerge concat_arrays)
           constant_emotion style_a style_b (Some "card")
           Cache.createStyleCache []); discriminate.
Defined.

(** X16. Two nodes built by the composer whose leaves have the same keys, in
    the same order, have the same key, whatever the shapes of the trees; so
    the two ways of merging three such nodes get the same key whenever both
    kept every leaf of the three. *)
Theorem composed_same_leaves_same_key (hashString : string -> string) :
  (forall s t,
      composed hashString s -> composed hashString t ->
      map getKey (leaves s) = map getKey (leaves t) ->
      getKey s = getKey t)
  /\ (forall A B C,
         composed hashString A -> composed hashString B -> composed hashString C ->
         leaves (mergeStyles (mergeStyles A B) C)
         = (leaves A ++ leaves B ++ leaves C)%list ->
         leaves (mergeStyles A (mergeStyles B C))
         = (leaves A ++ leaves B ++ leaves C)%list ->
         getKey (mergeStyles (mergeStyles A B) C)
         = getKey (mergeStyles A (mergeStyles B C))).
Proof.
  assert (Hsame : forall s t,
             composed hashString s -> composed hashString t ->
             map getKey (leaves s) = map getKey (leaves t) ->
             getKey s = getKey t).
  { intros s t Hs Ht Hleaves.
    apply composed_well_keyed in Hs. apply composed_well_keyed in Ht.
    destruct (isNullStyle s) eqn:Hns; destruct (isNullStyle t) eqn:Hnt.
    - apply isNullStyle_true in Hns. apply isNullStyle_true in Hnt.
      subst. reflexivity.
    - apply isNullStyle_true in Hns. subst s. apply isNullStyle_false_neq in Hnt.
      destruct (well_keyed_key t Ht Hnt) as [Hne _].
      cbn in Hleaves. destruct (leaves t); [congruence | discriminate].
    - apply isNullStyle_true in Hnt. subst t. apply isNullStyle_false_neq in Hns.
      destruct (well_keyed_key s Hs Hns) as [Hne _].
      cbn in Hleaves. destruct (leaves s); [congruence | discriminate].
    - apply isNullStyle_false_neq in Hns. apply isNullStyle_false_neq in Hnt.
      destruct (well_keyed_key s Hs Hns) as [_ ->].
      destruct (well_keyed_key t Ht Hnt) as [_ ->].
      rewrite Hleaves. reflexivity. }
  split; [exact Hsame |].
  intros A B C HA HB HC H1 H2. apply Hsame.
  - apply composed_merge; [apply composed_merge |]; assumption.
  - apply composed_merge; [| apply composed_merge]; assumption.
  - rewrite H1, H2. reflexivity.
Qed.

Lemma composed_same_leaves_same_key_witness :
  leaves (mergeStyles (mergeStyles style_c style_a) style_b)
  = (leaves style_c ++ leaves style_a ++ leaves style_b)%list
  /\ leaves (mergeStyles style_c (mergeStyles style_a style_b))
     = (leaves style_c ++ leaves style_a ++ leaves style_b)%list
  /\ getKey (mergeStyles (mergeStyles style_c style_a) style_b)
     = getKey (mergeStyles style_c (mergeStyles style_a style_b)).
Proof.
  split; [reflexivity |]. split; [reflexivity |].
  apply (proj2 (composed_same_leaves_same_key identity_hash) style_c style_a style_b);
    try apply composed_dynamic_obj; reflexivity.
Defined.
